(** * The labeled-example commit pipeline of doccano's data import

    A shallow embedding of [backend/data_import/pipeline/labeled_examples.py]:
    records and their labels, the label-type deriver, the commit pipeline and
    its kind-specific variants, over an explicit model of the relational
    store.  Python dictionaries are [gmap]s, lists are lists, exceptions are
    values of an error monad, and the store is threaded explicitly. *)

From Stdlib Require Import ZArith.
From stdpp Require Import base option list gmap strings fin_maps.

Open Scope string_scope.
Open Scope list_scope.

(** ** Exceptions and the error monad *)

Inductive key : Type :=
  | KStr (s : string)
  | KInt (z : Z).

Inductive exn : Type :=
  | KeyError (k : key)
  | AttributeError (attr : string)
  | TypeError (what : string).

Inductive result (A : Type) : Type :=
  | Ok (a : A)
  | Raise (e : exn).
Arguments Ok {A} a.
Arguments Raise {A} e.

#[global] Instance result_ret : MRet result := fun A a => Ok a.
#[global] Instance result_bind : MBind result := fun A B f m =>
  match m with
  | Ok a => f a
  | Raise e => Raise e
  end.
#[global] Instance result_fmap : FMap result := fun A B f m =>
  match m with
  | Ok a => Ok (f a)
  | Raise e => Raise e
  end.

Definition is_Ok {A} (m : result A) : Prop := ∃ a, m = Ok a.

(** [d[k]] on a dictionary with string keys, raising [KeyError]. *)
Definition getitem {V} (d : gmap string V) (k : string) : result V :=
  match d !! k with
  | Some v => Ok v
  | None => Raise (KeyError (KStr k))
  end.

(** [d[k]] on a dictionary with integer keys. *)
Definition getitemZ {V} (d : gmap Z V) (k : Z) : result V :=
  match d !! k with
  | Some v => Ok v
  | None => Raise (KeyError (KInt k))
  end.

(** A dict comprehension [{k: v for ...}]: pairs are inserted from left to
    right, so a later pair overrides an earlier one with the same key. *)
Definition dict_of `{Countable K} {V} (kvs : list (K * V)) : gmap K V :=
  foldl (λ d kv, <[kv.1 := kv.2]> d) ∅ kvs.

(** [[f(x) for x in l]] where [f] may raise: the first exception escapes. *)
Fixpoint comprehension {A B} (f : A → result B) (l : list A) : result (list B) :=
  match l with
  | [] => Ok []
  | x :: l' => y ← f x; ys ← comprehension f l'; Ok (y :: ys)
  end.

(** [list(filter(None, l))]: the entries that are not [None]. *)
Fixpoint filter_None {A} (l : list (option A)) : list A :=
  match l with
  | [] => []
  | None :: l' => filter_None l'
  | Some x :: l' => x :: filter_None l'
  end.

(** ** Stored rows *)

Abbreviation UUID := string.
Abbreviation Project := nat.
Abbreviation User := nat.

(** A row as the store returns it: the assigned primary key and the row. *)
Record Saved (A : Type) : Type := mkSaved { pk : nat; row : A }.
Arguments mkSaved {A} pk row.
Arguments pk {A} s.
Arguments row {A} s.

(** Modelled from the spec: the [Example] entity of [examples.models] (one
    document, created from a record's data and meta, section 3). *)
Record Example : Type := mkExample {
  ex_project : Project;
  ex_filename : string;
  ex_text : string;
  ex_meta : gmap string string
}.

(** Modelled from the spec: the label-type entities of [label_types.models];
    [CategoryType], [SpanType] and [RelationType] are the concrete classes, a
    label type is a named definition scoped to a project (section 3). *)
Inductive LabelTypeClass : Type := CategoryType | SpanType | RelationType.

(** Modelled from the spec: an unsaved label type of [label_types.models]:
    its concrete class, its project and its text. *)
Record LabelType : Type := mkLabelType {
  lt_class : LabelTypeClass;
  lt_project : Project;
  lt_text : string
}.

(** Modelled from the spec: the durable label entities of [labels.models]
    (section 3).  Each references an example and a user, all but [TextLabel]
    a label type, and a [Relation] two durable spans. *)
Record CategoryModel : Type := mkCategory {
  cat_user : User;
  cat_example : Saved Example;
  cat_label : Saved LabelType
}.

(** Modelled from the spec: [Span] of [labels.models]; it keeps the uuid of
    the span label it was made from. *)
Record SpanModel : Type := mkSpan {
  sp_uuid : UUID;
  sp_user : User;
  sp_example : Saved Example;
  sp_start_offset : Z;
  sp_end_offset : Z;
  sp_label : Saved LabelType
}.

(** Modelled from the spec: [TextLabel] of [labels.models]; it references no
    label type. *)
Record TextLabelModel : Type := mkTextLabel {
  tl_user : User;
  tl_example : Saved Example;
  tl_text : string
}.

(** Modelled from the spec: [Relation] of [labels.models]; [from_id] and
    [to_id] reference durable spans. *)
Record RelationModel : Type := mkRelation {
  rel_user : User;
  rel_example : Saved Example;
  rel_type : Saved LabelType;
  rel_from_id : Saved SpanModel;
  rel_to_id : Saved SpanModel
}.

(** Modelled from the spec: [Label] of [labels.models], the durable labels. *)
Inductive LabelModel : Type :=
  | Category (c : CategoryModel)
  | Span (s : SpanModel)
  | TextLabel (t : TextLabelModel)
  | Relation (r : RelationModel).

#[global] Instance LabelTypeClass_eq_dec : EqDecision LabelTypeClass.
Proof. solve_decision. Defined.
#[global] Instance LabelType_eq_dec : EqDecision LabelType.
Proof. solve_decision. Defined.

(** ** Transient labels *)

(** Modelled from the spec: the label classes of [.labels] (section 3 and
    section 9): a closed set of four variants.  A span carries the reference
    key [id] that relation labels point to and its [uuid]; a text label has
    no name. *)
Record SpanL : Type := mkSpanL {
  id : Z;
  uuid : UUID;
  start_offset : Z;
  end_offset : Z;
  span_label : string
}.

(** Modelled from the spec: a relation label of [.labels]: the reference
    keys of its two spans and the name of its type. *)
Record RelationL : Type := mkRelationL {
  from_id : Z;
  to_id : Z;
  type : string
}.

(** Modelled from the spec: [Label] of [.labels], the transient labels. *)
Inductive Label : Type :=
  | LCategory (label : string)
  | LSpan (s : SpanL)
  | LText (text : string)
  | LRelation (r : RelationL).

(** The classes a caller can filter on with [isinstance]. *)
Inductive LabelClass : Type :=
  | CategoryLabel | SpanLabel | TextLabelClass | RelationLabel.

Definition isinstance (l : Label) (c : LabelClass) : bool :=
  match l, c with
  | LCategory _, CategoryLabel => true
  | LSpan _, SpanLabel => true
  | LText _, TextLabelClass => true
  | LRelation _, RelationLabel => true
  | _, _ => false
  end.

(** Extra keyword arguments of [create]: the only one the pipeline ever
    passes is [span_mapping]. *)
Record Kwargs : Type := mkKwargs {
  span_mapping : option (gmap Z (Saved SpanModel))
}.

Definition no_kwargs : Kwargs := {| span_mapping := None |}.

Definition kwargs_span_mapping (kw : Kwargs) : result (gmap Z (Saved SpanModel)) :=
  match span_mapping kw with
  | Some m => Ok m
  | None => Raise (KeyError (KStr "span_mapping"))
  end.

(** Python truthiness of a string. *)
Definition truthy (s : string) : bool :=
  match s with
  | EmptyString => false
  | _ => true
  end.

Module LabelOps.

(** Modelled from the spec: [has_name] of [.labels] (section 3: the name is
    absent for text labels, which carry no type). *)
Definition has_name (l : Label) : bool :=
  match l with
  | LText _ => false
  | _ => true
  end.

(** Modelled from the spec: [name] of [.labels], the label-type identifier
    the label refers to.  It is only read under [has_name]. *)
Definition name (l : Label) : string :=
  match l with
  | LCategory n => n
  | LSpan s => span_label s
  | LText t => t
  | LRelation r => type r
  end.

(** Modelled from the spec: [create_type] of [.labels] (section 4.1): a
    label that has a name and a non-empty name materializes a label type of
    its kind, any other label materializes none. *)
Definition create_type (l : Label) (project : Project) : option LabelType :=
  if has_name l && truthy (name l) then
    match l with
    | LCategory n => Some (mkLabelType CategoryType project n)
    | LSpan s => Some (mkLabelType SpanType project (span_label s))
    | LRelation r => Some (mkLabelType RelationType project (type r))
    | LText _ => None
    end
  else None.

(** Modelled from the spec: [create] of [.labels] (sections 4.1 and 4.4): the
    durable label for an already persisted example.  The label type is looked
    up by name in [mapping]; a span copies its uuid; a relation resolves its
    two references through the [span_mapping] keyword argument, and a
    reference absent from it is a lookup error. *)
Definition create (l : Label) (user : User) (example : Saved Example)
    (mapping : gmap string (Saved LabelType)) (kw : Kwargs) : result LabelModel :=
  match l with
  | LCategory n =>
      ty ← getitem mapping n;
      Ok (Category (mkCategory user example ty))
  | LSpan s =>
      ty ← getitem mapping (span_label s);
      Ok (Span (mkSpan (uuid s) user example (start_offset s) (end_offset s) ty))
  | LText t =>
      Ok (TextLabel (mkTextLabel user example t))
  | LRelation r =>
      ty ← getitem mapping (type r);
      sm ← kwargs_span_mapping kw;
      f ← getitemZ sm (from_id r);
      t ← getitemZ sm (to_id r);
      Ok (Relation (mkRelation user example ty f t))
  end.

(** Modelled from the spec: [dict] of [.labels], the label as plain data. *)
Definition dict (l : Label) : list (string * string) :=
  match l with
  | LCategory n => [("label", n)]
  | LSpan s => [("label", span_label s)]
  | LText t => [("text", t)]
  | LRelation r => [("type", type r)]
  end.

End LabelOps.

(** ** Records *)

(** Modelled from the spec: [BaseData] of [.data]: the document content and
    the name of the file it came from; [create] projects it, with the
    record's meta, into an unsaved [Example] and does not touch the store. *)
Record BaseData : Type := mkData {
  filename : string;
  text : string
}.

(** Modelled from the spec: [BaseData.create] of [.data]. *)
Definition BaseData_create (d : BaseData) (project : Project)
    (meta : gmap string string) : Example :=
  mkExample project (filename d) (text d) meta.

(** Modelled from the spec: a cleaning rule of [.cleaners]: a function on
    label lists and a message. *)
Record Cleaner : Type := mkCleaner {
  cleaner_clean : list Label → list Label;
  cleaner_message : string
}.

(** Modelled from the spec: [FileParseException] of [.exceptions], the
    parse-warning value. *)
Record FileParseException : Type := mkFileParseException {
  fpe_filename : string;
  fpe_line_num : Z;
  fpe_message : string
}.

Module Record.

Record t : Type := mk {
  _data : BaseData;
  _label : list Label;
  _meta : gmap string string;
  _line_num : Z
}.

(** The [label] property: the labels that have a name and whose name is not
    empty, as plain data. *)
Definition label (self : t) : list (list (string * string)) :=
  LabelOps.dict <$>
    filter (λ l, LabelOps.has_name l && truthy (LabelOps.name l)) (_label self).

(** [clean]: the record after the call and the returned value ([None] when
    the method falls off its end). *)
Definition clean (self : t) (cleaner : Cleaner) : t * option FileParseException :=
  let label' := cleaner_clean cleaner (_label self) in
  let changed := negb (length label' =? length (label self))%nat in
  let self' := mk (_data self) label' (_meta self) (_line_num self) in
  if changed then
    (self', Some (mkFileParseException (filename (_data self)) (_line_num self)
                    (cleaner_message cleaner)))
  else (self', None).

Definition create_data (self : t) (project : Project) : Example :=
  BaseData_create (_data self) project (_meta self).

Definition create_label_type (self : t) (project : Project) : list LabelType :=
  let labels := (λ l, LabelOps.create_type l project) <$> _label self in
  filter_None labels.

Definition create_label (self : t) (user : User) (example : Saved Example)
    (mapping : gmap string (Saved LabelType)) (label_class : option LabelClass)
    (kwargs : Kwargs) : result (list LabelModel) :=
  match label_class with
  | None =>
      comprehension (λ l, LabelOps.create l user example mapping no_kwargs) (_label self)
  | Some c =>
      comprehension (λ l, LabelOps.create l user example mapping kwargs)
        (filter (λ l, isinstance l c) (_label self))
  end.

Definition select_label (self : t) (label_class : LabelClass) : list Label :=
  filter (λ l, isinstance l label_class) (_label self).

End Record.

(** ** The store *)

(** Modelled from the spec: the relational store behind the Django managers
    (section 6): one table per entity kind, rows in insertion order.
    [bulk_insert] returns the inserted rows with assigned identities in
    input order; [bulk_insert_ignore_conflicts] skips a row whose natural key
    (project, text) is already present; [query] filters rows.  Store faults
    other than handing a manager a row of another kind are not modelled. *)
Record Store : Type := mkStore {
  examples : list (Saved Example);
  category_types : list (Saved LabelType);
  span_types : list (Saved LabelType);
  relation_types : list (Saved LabelType);
  categories : list (Saved CategoryModel);
  spans : list (Saved SpanModel);
  text_labels : list (Saved TextLabelModel);
  relations : list (Saved RelationModel)
}.

Definition label_types (st : Store) (c : LabelTypeClass) : list (Saved LabelType) :=
  match c with
  | CategoryType => category_types st
  | SpanType => span_types st
  | RelationType => relation_types st
  end.

Definition set_label_types (st : Store) (c : LabelTypeClass)
    (tbl : list (Saved LabelType)) : Store :=
  match c with
  | CategoryType =>
      mkStore (examples st) tbl (span_types st) (relation_types st)
        (categories st) (spans st) (text_labels st) (relations st)
  | SpanType =>
      mkStore (examples st) (category_types st) tbl (relation_types st)
        (categories st) (spans st) (text_labels st) (relations st)
  | RelationType =>
      mkStore (examples st) (category_types st) (span_types st) tbl
        (categories st) (spans st) (text_labels st) (relations st)
  end.

(** Modelled from the spec: the identities the store assigns; the next free
    primary key of a table. *)
Definition next_pk {A} (tbl : list (Saved A)) : nat := S (max_list (pk <$> tbl)).

(** Modelled from the spec: consecutive keys for the rows of one insert. *)
Fixpoint assign_pks {A} (n : nat) (objs : list A) : list (Saved A) :=
  match objs with
  | [] => []
  | x :: objs' => mkSaved n x :: assign_pks (S n) objs'
  end.

(** Modelled from the spec: [bulk_insert] of the store interface: the rows
    as inserted, in input order, and the table after the insert. *)
Definition bulk_insert {A} (tbl : list (Saved A)) (objs : list A)
    : list (Saved A) * list (Saved A) :=
  let inserted := assign_pks (next_pk tbl) objs in
  (inserted, tbl ++ inserted).

(** Modelled from the spec: the natural uniqueness key of a label type,
    declared in [label_types.models]. *)
Definition unique_key (x : LabelType) : Project * string := (lt_project x, lt_text x).

(** Modelled from the spec: [bulk_insert_ignore_conflicts] of the store
    interface: rows are taken one after the other, a row whose key is already
    in the table is skipped. *)
Fixpoint bulk_insert_ignore_conflicts (tbl : list (Saved LabelType))
    (objs : list LabelType) : list (Saved LabelType) :=
  match objs with
  | [] => tbl
  | x :: objs' =>
      if decide (unique_key x ∈ (unique_key ∘ row) <$> tbl)
      then bulk_insert_ignore_conflicts tbl objs'
      else bulk_insert_ignore_conflicts (tbl ++ [mkSaved (next_pk tbl) x]) objs'
  end.

(** Computations on the store that may raise: the store keeps what was
    written before the exception. *)
Definition M (A : Type) : Type := Store → result A * Store.

#[global] Instance M_ret : MRet M := λ A a st, (Ok a, st).
#[global] Instance M_bind : MBind M := λ A B f m st,
  match m st with
  | (Ok a, st') => f a st'
  | (Raise e, st') => (Raise e, st')
  end.

Definition lift {A} (r : result A) : M A := λ st, (r, st).
Definition query {A} (q : Store → A) : M A := λ st, (Ok (q st), st).

Definition as_category (m : LabelModel) : result CategoryModel :=
  match m with Category c => Ok c | _ => Raise (TypeError "Category") end.
Definition as_span (m : LabelModel) : result SpanModel :=
  match m with Span s => Ok s | _ => Raise (TypeError "Span") end.
Definition as_text_label (m : LabelModel) : result TextLabelModel :=
  match m with TextLabel t => Ok t | _ => Raise (TypeError "TextLabel") end.
Definition as_relation (m : LabelModel) : result RelationModel :=
  match m with Relation r => Ok r | _ => Raise (TypeError "Relation") end.

(** [label.uuid] on a durable label: only spans carry one. *)
Definition model_uuid (m : LabelModel) : result UUID :=
  match m with Span s => Ok (sp_uuid s) | _ => Raise (AttributeError "uuid") end.

(** [span.id] and [span.uuid] on a transient label. *)
Definition label_id (l : Label) : result Z :=
  match l with LSpan s => Ok (id s) | _ => Raise (AttributeError "id") end.
Definition label_uuid (l : Label) : result UUID :=
  match l with LSpan s => Ok (uuid s) | _ => Raise (AttributeError "uuid") end.

(** Modelled from the spec: the managers of the entity classes
    ([Example.objects], [Span.objects], ...), on the store above.  A manager
    handed a row of another kind raises. *)
Module Objects.

Definition Example_bulk_create (objs : list Example) : M (list (Saved Example)) := λ st,
  let '(inserted, tbl) := bulk_insert (examples st) objs in
  (Ok inserted,
   mkStore tbl (category_types st) (span_types st) (relation_types st)
     (categories st) (spans st) (text_labels st) (relations st)).

Definition LabelType_bulk_create_ignore_conflicts (c : LabelTypeClass)
    (instances : list LabelType) : M unit := λ st,
  (Ok (), set_label_types st c (bulk_insert_ignore_conflicts (label_types st c) instances)).

Definition LabelType_filter_project (c : LabelTypeClass) (project : Project)
    : M (list (Saved LabelType)) :=
  query (λ st, filter (λ r, lt_project (row r) = project) (label_types st c)).

Definition Category_bulk_create (objs : list LabelModel) : M unit := λ st,
  match comprehension as_category objs with
  | Raise e => (Raise e, st)
  | Ok rows =>
      (Ok (),
       mkStore (examples st) (category_types st) (span_types st) (relation_types st)
         (bulk_insert (categories st) rows).2 (spans st) (text_labels st) (relations st))
  end.

Definition Span_bulk_create (objs : list LabelModel) : M unit := λ st,
  match comprehension as_span objs with
  | Raise e => (Raise e, st)
  | Ok rows =>
      (Ok (),
       mkStore (examples st) (category_types st) (span_types st) (relation_types st)
         (categories st) (bulk_insert (spans st) rows).2 (text_labels st) (relations st))
  end.

Definition TextLabel_bulk_create (objs : list LabelModel) : M unit := λ st,
  match comprehension as_text_label objs with
  | Raise e => (Raise e, st)
  | Ok rows =>
      (Ok (),
       mkStore (examples st) (category_types st) (span_types st) (relation_types st)
         (categories st) (spans st) (bulk_insert (text_labels st) rows).2 (relations st))
  end.

Definition Relation_bulk_create (objs : list LabelModel) : M unit := λ st,
  match comprehension as_relation objs with
  | Raise e => (Raise e, st)
  | Ok rows =>
      (Ok (),
       mkStore (examples st) (category_types st) (span_types st) (relation_types st)
         (categories st) (spans st) (text_labels st) (bulk_insert (relations st) rows).2)
  end.

Definition Span_filter_uuid_in (uuids : list UUID) : M (list (Saved SpanModel)) :=
  query (λ st, filter (λ s, sp_uuid (row s) ∈ uuids) (spans st)).

End Objects.

(** ** The pipeline *)

(** [group_by_class]: a dictionary in insertion order, from a class to the
    instances of that class in the order they came. *)
Fixpoint group_append {C V} `{EqDecision C} (c : C) (x : V)
    (groups : list (C * list V)) : list (C * list V) :=
  match groups with
  | [] => [(c, [x])]
  | (c', xs) :: groups' =>
      if decide (c = c') then (c', xs ++ [x]) :: groups'
      else (c', xs) :: group_append c x groups'
  end.

Definition group_by_class {C V} `{EqDecision C} (class_of : V → C)
    (instances : list V) : list (C * list V) :=
  foldl (λ groups instance, group_append (class_of instance) instance groups) [] instances.

Module LabeledExamples.

Section WithRecords.
Variable records : list Record.t.

Definition create_data (project : Project) : M (list (Saved Example)) :=
  let examples := (λ record, Record.create_data record project) <$> records in
  Objects.Example_bulk_create examples.

Fixpoint for_each {A} (body : A → M unit) (l : list A) : M unit :=
  match l with
  | [] => mret ()
  | x :: l' => body x ≫= λ _, for_each body l'
  end.

Definition create_label_type (project : Project) : M unit :=
  let labels := (λ record, Record.create_label_type record project) <$> records in
  let flatten := concat labels in
  for_each (λ '(label_type_class, instances),
              Objects.LabelType_bulk_create_ignore_conflicts label_type_class instances)
    (group_by_class lt_class flatten).

Definition create_mapping (project : Project) (label_type : LabelTypeClass)
    : M (gmap string (Saved LabelType)) :=
  rows ← Objects.LabelType_filter_project label_type project;
  mret (dict_of ((λ label, (lt_text (row label), label)) <$> rows)).

Definition extract_labels (user : User) (examples : list (Saved Example))
    (mapping : gmap string (Saved LabelType)) (label_class : option LabelClass)
    (kwargs : Kwargs) : result (list LabelModel) :=
  (λ per_record, concat per_record) <$>
    comprehension
      (λ '(data, example), Record.create_label data user example mapping label_class kwargs)
      (zip records examples).

(** The base [create_label] is [pass]. *)
Definition create_label (project : Project) (user : User)
    (examples : list (Saved Example)) : M unit := mret ().

(** [create], with the variant's [create_label]. *)
Definition create (create_label : Project → User → list (Saved Example) → M unit)
    (project : Project) (user : User) : M unit :=
  examples ← create_data project;
  create_label_type project ≫= λ _,
  create_label project user examples.

End WithRecords.
End LabeledExamples.

Module CategoryExamples.
Definition create_label (records : list Record.t) (project : Project) (user : User)
    (examples : list (Saved Example)) : M unit :=
  category_mapping ← LabeledExamples.create_mapping project CategoryType;
  categories ← lift (LabeledExamples.extract_labels records user examples
                       category_mapping None no_kwargs);
  Objects.Category_bulk_create categories.

Definition create (records : list Record.t) : Project → User → M unit :=
  LabeledExamples.create records (create_label records).
End CategoryExamples.

Module SpanExamples.
Definition create_label (records : list Record.t) (project : Project) (user : User)
    (examples : list (Saved Example)) : M unit :=
  span_mapping ← LabeledExamples.create_mapping project SpanType;
  spans ← lift (LabeledExamples.extract_labels records user examples
                  span_mapping None no_kwargs);
  Objects.Span_bulk_create spans.

Definition create (records : list Record.t) : Project → User → M unit :=
  LabeledExamples.create records (create_label records).
End SpanExamples.

Module TextExamples.
Definition create_label (records : list Record.t) (project : Project) (user : User)
    (examples : list (Saved Example)) : M unit :=
  texts ← lift (LabeledExamples.extract_labels records user examples ∅ None no_kwargs);
  Objects.TextLabel_bulk_create texts.

(** The override of [create]: no label types are derived. *)
Definition create (records : list Record.t) (project : Project) (user : User) : M unit :=
  examples ← LabeledExamples.create_data records project;
  create_label records project user examples.
End TextExamples.

Module SpanAndCategoryExamples.
Definition create_label (records : list Record.t) (project : Project) (user : User)
    (examples : list (Saved Example)) : M unit :=
  span_mapping ← LabeledExamples.create_mapping project SpanType;
  category_mapping ← LabeledExamples.create_mapping project CategoryType;
  spans ← lift (LabeledExamples.extract_labels records user examples
                  span_mapping (Some SpanLabel) no_kwargs);
  categories ← lift (LabeledExamples.extract_labels records user examples
                       category_mapping (Some CategoryLabel) no_kwargs);
  Objects.Span_bulk_create spans ≫= λ _,
  Objects.Category_bulk_create categories.

Definition create (records : list Record.t) : Project → User → M unit :=
  LabeledExamples.create records (create_label records).
End SpanAndCategoryExamples.

Module RelationExamples.

(** The dictionary [{span.id: uuid_to_span[span.uuid] for span in
    original_spans}]. *)
Definition build_id_to_span (uuid_to_span : gmap UUID (Saved SpanModel))
    (original_spans : list Label) : result (gmap Z (Saved SpanModel)) :=
  dict_of <$>
    comprehension
      (λ span, k ← label_id span; u ← label_uuid span; v ← getitem uuid_to_span u; Ok (k, v))
      original_spans.

Definition create_label (records : list Record.t) (project : Project) (user : User)
    (examples : list (Saved Example)) : M unit :=
  span_mapping ← LabeledExamples.create_mapping project SpanType;
  relation_mapping ← LabeledExamples.create_mapping project RelationType;
  labels ← lift (LabeledExamples.extract_labels records user examples
                   span_mapping (Some SpanLabel) no_kwargs);
  uuids ← lift (comprehension model_uuid labels);
  Objects.Span_bulk_create labels ≫= λ _,
  let original_spans := concat ((λ example, Record.select_label example SpanLabel) <$> records) in
  rows ← Objects.Span_filter_uuid_in uuids;
  let uuid_to_span := dict_of ((λ span, (sp_uuid (row span), span)) <$> rows) in
  id_to_span ← lift (build_id_to_span uuid_to_span original_spans);
  relations ← lift (LabeledExamples.extract_labels records user examples
                      relation_mapping (Some RelationLabel) (mkKwargs (Some id_to_span)));
  Objects.Relation_bulk_create relations.

Definition create (records : list Record.t) : Project → User → M unit :=
  LabeledExamples.create records (create_label records).
End RelationExamples.

(** * Specification vocabulary *)

(** The labels of a record that have a name and a non-empty name. *)
Definition named (l : Label) : bool := LabelOps.has_name l && truthy (LabelOps.name l).

(** The cleaner that keeps every label. *)
Definition identity_cleaner : Cleaner := mkCleaner (λ labels, labels) "".

(** A cleaner that removes the text labels. *)
Definition typed_only_cleaner : Cleaner :=
  mkCleaner (filter (λ l, negb (isinstance l TextLabelClass))) "text labels removed".

(** The durable text labels of one record, for its example. *)
Definition text_rows (user : User) (pair : Record.t * Saved Example) : list TextLabelModel :=
  (λ l, mkTextLabel user pair.2 (LabelOps.name l)) <$> Record._label pair.1.

(** The natural keys present in a label-type table. *)
Definition keys (tbl : list (Saved LabelType)) : list (Project * string) :=
  (unique_key ∘ row) <$> tbl.

(** The label types a batch implies, flattened over its records. *)
Definition implied_types (records : list Record.t) (project : Project) : list LabelType :=
  concat ((λ record, Record.create_label_type record project) <$> records).

(** The instances grouped under a class, none when the class has no group. *)
Fixpoint group_lookup {C V} `{EqDecision C} (c : C) (groups : list (C * list V)) : list V :=
  match groups with
  | [] => []
  | (c', xs) :: groups' => if decide (c = c') then xs else group_lookup c groups'
  end.

(** A store with its three label-type tables replaced. *)
Definition with_label_types (st : Store)
    (tables : LabelTypeClass → list (Saved LabelType)) : Store :=
  mkStore (examples st) (tables CategoryType) (tables SpanType) (tables RelationType)
    (categories st) (spans st) (text_labels st) (relations st).

(** The span labels and the relation labels of a record, in order. *)
Definition spans_of (record : Record.t) : list SpanL :=
  omap (λ l, match l with LSpan s => Some s | _ => None end) (Record._label record).

Definition relations_of (record : Record.t) : list RelationL :=
  omap (λ l, match l with LRelation r => Some r | _ => None end) (Record._label record).

(** The span labels of all records of a batch, in order. *)
Definition batch_spans (records : list Record.t) : list SpanL :=
  concat (spans_of <$> records).

(** The span and relation labels that meet an example in the zip. *)
Definition span_pairs (records : list Record.t) (examples : list (Saved Example))
    : list (SpanL * Saved Example) :=
  concat ((λ pair, (λ s, (s, pair.2)) <$> spans_of pair.1) <$> zip records examples).

Definition relation_pairs (records : list Record.t) (examples : list (Saved Example))
    : list (RelationL * Saved Example) :=
  concat ((λ pair, (λ r, (r, pair.2)) <$> relations_of pair.1) <$> zip records examples).

(** What [create] does on a span and on a relation label. *)
Definition span_row (user : User) (mapping : gmap string (Saved LabelType))
    (p : SpanL * Saved Example) : result LabelModel :=
  LabelOps.create (LSpan p.1) user p.2 mapping no_kwargs.

Definition relation_row (user : User) (mapping : gmap string (Saved LabelType))
    (kwargs : Kwargs) (p : RelationL * Saved Example) : result LabelModel :=
  LabelOps.create (LRelation p.1) user p.2 mapping kwargs.

(** The name-to-type dictionary [create_mapping] builds from a store. *)
Definition mapping_of (st : Store) (project : Project) (label_type : LabelTypeClass)
    : gmap string (Saved LabelType) :=
  dict_of ((λ label, (lt_text (row label), label)) <$>
             filter (λ r, lt_project (row r) = project) (label_types st label_type)).

(** The uuid-to-span dictionary built from the rows the query returns. *)
Definition uuid_to_span_of (st : Store) (uuids : list UUID) : gmap UUID (Saved SpanModel) :=
  dict_of ((λ span, (sp_uuid (row span), span)) <$>
             filter (λ s, sp_uuid (row s) ∈ uuids) (spans st)).

(** The store after a bulk insert of span rows. *)
Definition with_new_spans (st : Store) (rows : list SpanModel) : Store :=
  mkStore (examples st) (category_types st) (span_types st) (relation_types st)
    (categories st) (spans st ++ assign_pks (next_pk (spans st)) rows)
    (text_labels st) (relations st).

(** The store after a bulk insert of relation rows. *)
Definition with_new_relations (st : Store) (rows : list RelationModel) : Store :=
  mkStore (examples st) (category_types st) (span_types st) (relation_types st)
    (categories st) (spans st) (text_labels st)
    (relations st ++ assign_pks (next_pk (relations st)) rows).

(** The durable span a span label turns into. *)
Definition span_model (user : User) (ty : Saved LabelType) (p : SpanL * Saved Example)
    : SpanModel :=
  mkSpan (uuid p.1) user p.2 (start_offset p.1) (end_offset p.1) ty.

(** One entry of the identity-to-span dictionary. *)
Definition id_entry (uuid_to_span : gmap UUID (Saved SpanModel)) (s : SpanL)
    : result (Z * Saved SpanModel) :=
  v ← getitem uuid_to_span (uuid s); Ok (id s, v).

(** The relation labels of all records of a batch, in order. *)
Definition batch_relations (records : list Record.t) : list RelationL :=
  concat (relations_of <$> records).

(** What it means for a durable span to be the one stored for a span label
    of the batch on an example: it is among the spans this batch inserted,
    and its row is the label's, with the label's uuid and offsets, on that
    example, under the span type of the label's name. *)
Definition endpoint (project : Project) (user : User) (st : Store)
    (new_spans : list (Saved SpanModel)) (example : Saved Example) (s : SpanL)
    (d : Saved SpanModel) : Prop :=
  d ∈ new_spans
  ∧ ∃ ty, mapping_of st project SpanType !! span_label s = Some ty
          ∧ row d = span_model user ty (s, example).

(** What it means for a durable relation row to link the spans of a relation
    label that meets an example: it is on that example, its type is the
    entry of the relation-type mapping under the label's type name, and its
    two end points are the durable spans stored, on that same example, for
    the span labels that carry the label's [from] and [to] keys. *)
Definition links (records : list Record.t) (project : Project) (user : User)
    (st : Store) (new_spans : list (Saved SpanModel))
    (d : Saved RelationModel) (p : RelationL * Saved Example) : Prop :=
  rel_example (row d) = p.2
  ∧ rel_user (row d) = user
  ∧ mapping_of st project RelationType !! type p.1 = Some (rel_type (row d))
  ∧ rel_type (row d) ∈ relation_types st
  ∧ lt_project (row (rel_type (row d))) = project
  ∧ lt_text (row (rel_type (row d))) = type p.1
  ∧ ∃ sA sB,
      sA ∈ batch_spans records ∧ id sA = from_id p.1
      ∧ sB ∈ batch_spans records ∧ id sB = to_id p.1
      ∧ endpoint project user st new_spans p.2 sA (rel_from_id (row d))
      ∧ endpoint project user st new_spans p.2 sB (rel_to_id (row d)).

(** The labels that meet an example in the zip, with that example. *)
Definition label_pairs (records : list Record.t) (examples : list (Saved Example))
    : list (Label * Saved Example) :=
  concat ((λ pair, (λ l, (l, pair.2)) <$> Record._label pair.1) <$> zip records examples).

(** The category labels of a record, and those that meet an example. *)
Definition categories_of (record : Record.t) : list string :=
  omap (λ l, match l with LCategory n => Some n | _ => None end) (Record._label record).

Definition category_pairs (records : list Record.t) (examples : list (Saved Example))
    : list (string * Saved Example) :=
  concat ((λ pair, (λ n, (n, pair.2)) <$> categories_of pair.1) <$> zip records examples).

(** What [create] does on a label, and on a category label. *)
Definition label_row (user : User) (mapping : gmap string (Saved LabelType))
    (p : Label * Saved Example) : result LabelModel :=
  LabelOps.create p.1 user p.2 mapping no_kwargs.

Definition category_row (user : User) (mapping : gmap string (Saved LabelType))
    (p : string * Saved Example) : result LabelModel :=
  LabelOps.create (LCategory p.1) user p.2 mapping no_kwargs.

(** The store after a bulk insert of category rows. *)
Definition with_new_categories (st : Store) (rows : list CategoryModel) : Store :=
  mkStore (examples st) (category_types st) (span_types st) (relation_types st)
    (categories st ++ assign_pks (next_pk (categories st)) rows) (spans st)
    (text_labels st) (relations st).

(** A cleaner that keeps the first label only. *)
Definition first_only_cleaner : Cleaner := mkCleaner (take 1) "only one label is allowed".

(** ** Scenarios *)

(** The store before any import. *)
Definition empty_store : Store := mkStore [] [] [] [] [] [] [] [].

Module Scenario.

(** The relation scenario: one record with two spans and a relation between
    them, and the store after phases 1 and 2 for project 7. *)
Definition span_u1 : SpanL := mkSpanL 1 "u1" 0 3 "PER".
Definition span_u2 : SpanL := mkSpanL 2 "u2" 5 8 "LOC".
Definition lives_in : RelationL := mkRelationL 1 2 "lives_in".

Definition record : Record.t :=
  Record.mk (mkData "corpus.jsonl" "Bob in Rome")
    [LSpan span_u1; LSpan span_u2; LRelation lives_in] ∅ 1.

Definition example : Saved Example :=
  mkSaved 1 (mkExample 7 "corpus.jsonl" "Bob in Rome" ∅).

Definition store : Store :=
  mkStore [example] []
    [mkSaved 1 (mkLabelType SpanType 7 "PER"); mkSaved 2 (mkLabelType SpanType 7 "LOC")]
    [mkSaved 1 (mkLabelType RelationType 7 "lives_in")]
    [] [] [] [].

(** A record whose relation points to a span key that no span carries. *)
Definition dangling : RelationL := mkRelationL 1 5 "lives_in".

Definition dangling_record : Record.t :=
  Record.mk (mkData "corpus.jsonl" "Bob in Rome")
    [LSpan span_u1; LRelation dangling] ∅ 1.

(** Two records that imply the same label types. *)
Definition tagged_record : Record.t :=
  Record.mk (mkData "corpus.jsonl" "Bob") [LSpan span_u1; LCategory "POS"] ∅ 1.

(** A record with one text label. *)
Definition text_record : Record.t :=
  Record.mk (mkData "corpus.jsonl" "hello") [LText "bonjour"] ∅ 1.

End Scenario.

(** Further sample batches. *)
Module Sample.

Definition category_record : Record.t :=
  Record.mk (mkData "reviews.jsonl" "Great film") [LCategory "POS"; LCategory "FILM"] ∅ 1.

Definition span_record : Record.t :=
  Record.mk (mkData "corpus.jsonl" "Bob in Rome")
    [LSpan Scenario.span_u1; LSpan Scenario.span_u2] ∅ 1.

Definition span_u3 : SpanL := mkSpanL 3 "u3" 0 4 "PER".

(** A record that meets no example when the batch has one example. *)
Definition late_record : Record.t :=
  Record.mk (mkData "corpus.jsonl" "Anna") [LSpan span_u3] ∅ 2.

(** A store with the category and span types of the samples, project 7. *)
Definition store : Store :=
  mkStore [Scenario.example]
    [mkSaved 1 (mkLabelType CategoryType 7 "POS");
     mkSaved 2 (mkLabelType CategoryType 7 "FILM")]
    [mkSaved 1 (mkLabelType SpanType 7 "PER"); mkSaved 2 (mkLabelType SpanType 7 "LOC")]
    [] [] [] [] [].

End Sample.

(** Batches of several records with relations. *)
Module Corpus.

(** Two records that both number their spans 1 and 2. *)
Definition span_a1 : SpanL := mkSpanL 1 "a1" 0 3 "PER".
Definition span_a2 : SpanL := mkSpanL 2 "a2" 7 11 "LOC".
Definition relation_a : RelationL := mkRelationL 1 2 "lives_in".

Definition record_a : Record.t :=
  Record.mk (mkData "corpus.jsonl" "Bob in Rome")
    [LSpan span_a1; LSpan span_a2; LRelation relation_a] ∅ 1.

Definition span_b1 : SpanL := mkSpanL 1 "b1" 0 4 "PER".
Definition span_b2 : SpanL := mkSpanL 2 "b2" 8 13 "LOC".
Definition relation_b : RelationL := mkRelationL 1 2 "lives_in".

Definition record_b : Record.t :=
  Record.mk (mkData "corpus.jsonl" "Anna in Paris")
    [LSpan span_b1; LSpan span_b2; LRelation relation_b] ∅ 2.

Definition example_a : Saved Example :=
  mkSaved 1 (mkExample 7 "corpus.jsonl" "Bob in Rome" ∅).
Definition example_b : Saved Example :=
  mkSaved 2 (mkExample 7 "corpus.jsonl" "Anna in Paris" ∅).

(** The store after phases 1 and 2 on these two records, project 7. *)
Definition store : Store :=
  mkStore [example_a; example_b] []
    [mkSaved 1 (mkLabelType SpanType 7 "PER"); mkSaved 2 (mkLabelType SpanType 7 "LOC")]
    [mkSaved 1 (mkLabelType RelationType 7 "lives_in")]
    [] [] [] [].

(** A record whose spans are numbered 3 and 4. *)
Definition span_c3 : SpanL := mkSpanL 3 "c3" 0 4 "PER".
Definition span_c4 : SpanL := mkSpanL 4 "c4" 8 13 "LOC".
Definition relation_c : RelationL := mkRelationL 4 3 "born_in".

Definition record_c : Record.t :=
  Record.mk (mkData "corpus.jsonl" "Anna in Paris")
    [LSpan span_c3; LSpan span_c4; LRelation relation_c] ∅ 2.

(** The durable spans of the two spans numbered 1. *)
Definition durable_a1 : Saved SpanModel :=
  mkSaved 1 (mkSpan "a1" 9 example_a 0 3 (mkSaved 1 (mkLabelType SpanType 7 "PER"))).
Definition durable_b1 : Saved SpanModel :=
  mkSaved 3 (mkSpan "b1" 9 example_b 0 4 (mkSaved 1 (mkLabelType SpanType 7 "PER"))).

(** A store that already holds an example with a text label, and a category
    type of project 7. *)
Definition text_store : Store :=
  mkStore [Scenario.example]
    [mkSaved 1 (mkLabelType CategoryType 7 "NEG")] [] []
    [] [] [mkSaved 1 (mkTextLabel 9 Scenario.example "salut")] [].

End Corpus.

(** What a stored relation shows of its document and of its end points:
    the text of its example, the uuids of its two spans, and the texts of
    the examples those two spans are on. *)
Definition relation_summary (d : Saved RelationModel)
    : string * UUID * UUID * string * string :=
  (ex_text (row (rel_example (row d))),
   sp_uuid (row (rel_from_id (row d))),
   sp_uuid (row (rel_to_id (row d))),
   ex_text (row (sp_example (row (rel_from_id (row d))))),
   ex_text (row (sp_example (row (rel_to_id (row d)))))).

(** * Properties *)

(** ** The error monad and comprehensions *)

Lemma comprehension_app {A B} (f : A → result B) (l1 l2 : list A) :
  comprehension f (l1 ++ l2) =
    ys1 ← comprehension f l1; ys2 ← comprehension f l2; Ok (ys1 ++ ys2).
Proof.
  induction l1 as [|x l1 IH]; simpl.
  - by destruct (comprehension f l2).
  - destruct (f x) as [y|e]; simpl; [|done].
    rewrite IH. destruct (comprehension f l1) as [ys1|e]; simpl; [|done].
    by destruct (comprehension f l2).
Qed.

Lemma comprehension_ext {A B} (f g : A → result B) (l : list A) :
  (∀ x, x ∈ l → f x = g x) → comprehension f l = comprehension g l.
Proof.
  induction l as [|x l IH]; intros Hfg; simpl; [done|].
  rewrite (Hfg x) by left. rewrite IH; [done|].
  intros y Hy. apply Hfg. by right.
Qed.

Lemma comprehension_Ok_fmap {A B} (f : A → result B) (g : A → B) (l : list A) :
  (∀ x, x ∈ l → f x = Ok (g x)) → comprehension f l = Ok (g <$> l).
Proof.
  induction l as [|x l IH]; intros Hfg; simpl; [done|].
  rewrite (Hfg x) by left. simpl. rewrite IH; [done|].
  intros y Hy. apply Hfg. by right.
Qed.

Lemma comprehension_Ok_inv {A B} (f : A → result B) (l : list A) (ys : list B) :
  comprehension f l = Ok ys → Forall2 (λ x y, f x = Ok y) l ys.
Proof.
  revert ys. induction l as [|x l IH]; intros ys; simpl.
  - intros [= <-]. constructor.
  - destruct (f x) as [y|e] eqn:Hx; simpl; [|done].
    destruct (comprehension f l) as [ys'|e] eqn:Hl; simpl; [|done].
    intros [= <-]. constructor; [done|]. by apply IH.
Qed.

(** An element whose image raises makes the whole comprehension raise, with
    an exception taken from the images. *)
Lemma comprehension_Raise {A B} (f : A → result B) (l : list A) (x : A) (e : exn) :
  x ∈ l → f x = Raise e →
  ∃ x' e', x' ∈ l ∧ f x' = Raise e' ∧ comprehension f l = Raise e'.
Proof.
  induction l as [|a l IH]; intros Hin Hx; [by apply elem_of_nil in Hin|].
  simpl. destruct (f a) as [y|ea] eqn:Ha; simpl.
  - apply elem_of_cons in Hin as [->|Hin]; [congruence|].
    destruct (IH Hin Hx) as (x' & e' & Hx' & Hfx' & Hc).
    exists x', e'. rewrite Hc. split; [by right|done].
  - exists a, ea. split; [by left|done].
Qed.

Lemma filter_all {A} (P : A → Prop) `{∀ x, Decision (P x)} (l : list A) :
  Forall P l → filter P l = l.
Proof.
  induction 1 as [|x l Hx _ IH]; [done|].
  rewrite filter_cons_True by done. by rewrite IH.
Qed.

Lemma filter_none {A} (P : A → Prop) `{∀ x, Decision (P x)} (l : list A) :
  Forall (λ x, ¬ P x) l → filter P l = [].
Proof.
  induction 1 as [|x l Hx _ IH]; [done|].
  by rewrite filter_cons_False.
Qed.

Lemma concat_fmap_fmap {A B C} (g : B → C) (f : A → list B) (l : list A) :
  concat ((λ x, g <$> f x) <$> l) = g <$> concat (f <$> l).
Proof.
  induction l as [|x l IH]; [done|].
  by rewrite !fmap_cons, !concat_cons, fmap_app, IH.
Qed.

Lemma filter_None_spec {A} (l : list (option A)) :
  Some <$> filter_None l = filter is_Some l.
Proof.
  induction l as [|[x|] l IH]; [done| |].
  - change (filter_None (Some x :: l)) with (x :: filter_None l).
    rewrite fmap_cons, filter_cons_True by eauto. by rewrite IH.
  - change (filter_None (None :: l)) with (filter_None l).
    rewrite filter_cons_False; [done|]. by intros [? ?].
Qed.

(** ** Records *)

Lemma create_type_named (l : Label) (project : Project) :
  named l = true →
  ∃ ty, LabelOps.create_type l project = Some ty ∧
        lt_project ty = project ∧ lt_text ty = LabelOps.name l.
Proof.
  unfold named, LabelOps.create_type. intros H. rewrite H.
  destruct l; simpl in *; eauto; discriminate.
Qed.

Lemma create_type_unnamed (l : Label) (project : Project) :
  named l = false → LabelOps.create_type l project = None.
Proof. unfold named, LabelOps.create_type. by intros ->. Qed.

(** C8: [Record.create_label_type] returns, in order, one label type per
    label that has a non-empty name (with that name and the given project),
    omits every label that materializes none (text labels, empty names), and
    the result is the list of materialized types without any [None]. *)
Theorem create_label_type_one_per_named_label (self : Record.t) (project : Project) :
  Forall2 (λ l ty, LabelOps.create_type l project = Some ty ∧
                   lt_project ty = project ∧ lt_text ty = LabelOps.name l)
    (filter (λ l, named l) (Record._label self))
    (Record.create_label_type self project)
  ∧ (∀ l, l ∈ Record._label self → named l = false →
          LabelOps.create_type l project = None)
  ∧ (∀ t, LabelOps.create_type (LText t) project = None)
  ∧ Some <$> Record.create_label_type self project =
      filter is_Some ((λ l, LabelOps.create_type l project) <$> Record._label self).
Proof.
  split; [|split; [|split]].
  - unfold Record.create_label_type.
    induction (Record._label self) as [|l ls IH]; [constructor|].
    rewrite fmap_cons. destruct (named l) eqn:Hn.
    + rewrite filter_cons_True by (by apply Is_true_true).
      destruct (create_type_named l project Hn) as (ty & Hty & Hp & Ht).
      rewrite Hty. constructor; [done|]. apply IH.
    + rewrite filter_cons_False by (by apply Is_true_false).
      rewrite (create_type_unnamed l project Hn). apply IH.
  - intros l _ Hn. by apply create_type_unnamed.
  - done.
  - apply filter_None_spec.
Qed.

(** C10: on the unfiltered path ([label_class] is [None]) the extra keyword
    arguments are ignored: every label is materialized with (user, example,
    mapping) only, whatever the extras are.  With a class filter the extras
    reach [create], and they matter: a relation label resolves with a
    [span_mapping] on the filtered path and raises on the unfiltered one. *)
Theorem create_label_forwards_kwargs_only_when_filtered
    (self : Record.t) (user : User) (example : Saved Example)
    (mapping : gmap string (Saved LabelType)) (kwargs : Kwargs) :
  Record.create_label self user example mapping None kwargs =
    comprehension (λ l, LabelOps.create l user example mapping no_kwargs)
      (Record._label self)
  ∧ (∀ kwargs', Record.create_label self user example mapping None kwargs =
                Record.create_label self user example mapping None kwargs')
  ∧ (∀ c, Record.create_label self user example mapping (Some c) kwargs =
          comprehension (λ l, LabelOps.create l user example mapping kwargs)
            (filter (λ l, isinstance l c) (Record._label self)))
  ∧ (∃ (rec : Record.t) (m : gmap string (Saved LabelType)) (kw : Kwargs),
        is_Ok (Record.create_label rec user example m (Some RelationLabel) kw) ∧
        Record.create_label rec user example m None kw =
          Raise (KeyError (KStr "span_mapping")) ∧
        Record.create_label rec user example m (Some RelationLabel) no_kwargs =
          Raise (KeyError (KStr "span_mapping"))).
Proof.
  split; [done|]. split; [done|]. split; [done|].
  set (ty := mkSaved 1 (mkLabelType RelationType 0 "r")).
  set (sp := mkSaved 1 (mkSpan "u" user example 0 1 ty)).
  exists (Record.mk (mkData "f" "t") [LRelation (mkRelationL 1 1 "r")] ∅ 1),
    {["r" := ty]}, (mkKwargs (Some {[1%Z := sp]})).
  split; [|split].
  - eexists. vm_compute. reflexivity.
  - vm_compute. reflexivity.
  - vm_compute. reflexivity.
Qed.

(** [Record.clean] in general: the label list is replaced by the cleaner's
    output, and a warning is returned exactly when the length of that output
    differs from the length of the [label] property. *)
Lemma clean_spec (self : Record.t) (cleaner : Cleaner) :
  Record._label (Record.clean self cleaner).1 = cleaner_clean cleaner (Record._label self)
  ∧ (is_Some (Record.clean self cleaner).2 ↔
       length (cleaner_clean cleaner (Record._label self)) ≠
       length (filter (λ l, named l) (Record._label self))).
Proof.
  unfold Record.clean, Record.label, named. rewrite length_fmap.
  match goal with
  | |- context [(?a =? ?b)%nat] => destruct (Nat.eqb_spec a b) as [Heq|Hne]
  end; simpl; (split; [done|]).
  - split; [by intros [? ?]|done].
  - split; [done|eauto].
Qed.

(** On a record all of whose labels have a non-empty name, and for a cleaner
    that only removes labels, the warning tells exactly that labels were
    removed. *)
Lemma clean_named_record (self : Record.t) (cleaner : Cleaner) :
  Forall (λ l, named l) (Record._label self) →
  (length (cleaner_clean cleaner (Record._label self)) ≤ length (Record._label self))%nat →
  (is_Some (Record.clean self cleaner).2 ↔
     (length (Record._label (Record.clean self cleaner).1) < length (Record._label self))%nat).
Proof.
  intros Hnamed Hle.
  destruct (clean_spec self cleaner) as [-> ->].
  rewrite (filter_all _ _ Hnamed). lia.
Qed.

(** C6: on a record holding one text label, cleaned by a cleaner that keeps
    every label, [Record.clean] leaves the label count unchanged and still
    returns a parse warning: the count of the cleaner's output is compared
    with the [label] property, which leaves out labels without a name. *)
Theorem clean_warns_on_unchanged_text_record :
  let record := Record.mk (mkData "corpus.jsonl" "hello") [LText "bonjour"] ∅ 1 in
  Record._label (Record.clean record identity_cleaner).1 = Record._label record
  ∧ length (Record._label (Record.clean record identity_cleaner).1) =
      length (Record._label record)
  ∧ (Record.clean record identity_cleaner).2 =
      Some (mkFileParseException "corpus.jsonl" 1 "").
Proof. by vm_compute. Qed.

(** The converse case: the cleaner removes the text label of a record that
    also has a category label, the count goes from two to one, and no
    warning is returned. *)
Lemma clean_silent_on_dropped_text_label :
  let record := Record.mk (mkData "corpus.jsonl" "hello")
                  [LText "bonjour"; LCategory "POS"] ∅ 1 in
  Record._label (Record.clean record typed_only_cleaner).1 = [LCategory "POS"]
  ∧ (Record.clean record typed_only_cleaner).2 = None.
Proof. by vm_compute. Qed.

(** ** Phase 1: examples *)

Lemma length_assign_pks {A} (n : nat) (objs : list A) :
  length (assign_pks n objs) = length objs.
Proof. revert n. induction objs as [|x objs IH]; intros n; simpl; [done|]. by rewrite IH. Qed.

Lemma row_assign_pks {A} (n : nat) (objs : list A) : row <$> assign_pks n objs = objs.
Proof. revert n. induction objs as [|x objs IH]; intros n; simpl; [done|]. by rewrite IH. Qed.

Lemma lookup_assign_pks {A} (n : nat) (objs : list A) (i : nat) (x : A) :
  objs !! i = Some x → assign_pks n objs !! i = Some (mkSaved (n + i) x).
Proof.
  revert n i. induction objs as [|y objs IH]; intros n [|i]; simpl; try done.
  - intros [= ->]. by rewrite Nat.add_0_r.
  - intros Hi. rewrite (IH (S n) i Hi). do 2 f_equal. lia.
Qed.

(** What [create_data] does to the store: the new examples are appended,
    every other table is untouched. *)
Lemma create_data_keeps_record_order_aux (records : list Record.t) (project : Project)
    (st : Store) :
  ∃ new_examples st',
    LabeledExamples.create_data records project st = (Ok new_examples, st')
    ∧ length new_examples = length records
    ∧ row <$> new_examples = (λ record, Record.create_data record project) <$> records
    ∧ examples st' = examples st ++ new_examples
    ∧ (category_types st' = category_types st
       ∧ span_types st' = span_types st
       ∧ relation_types st' = relation_types st
       ∧ categories st' = categories st
       ∧ spans st' = spans st
       ∧ text_labels st' = text_labels st
       ∧ relations st' = relations st).
Proof.
  unfold LabeledExamples.create_data, Objects.Example_bulk_create, bulk_insert.
  eexists _, _. split; [reflexivity|]. cbn.
  rewrite length_assign_pks, length_fmap, row_assign_pks. done.
Qed.

(** C3: [create_data] returns as many examples as there are records, the
    i-th one being the persisted example made from record i (its row is the
    record's projection, its key the i-th fresh one, and it is in the store),
    so zipping the records with the result keeps every record and pairs it
    with its own example. *)
Theorem create_data_keeps_record_order (records : list Record.t) (project : Project)
    (st : Store) :
  ∃ new_examples st',
    LabeledExamples.create_data records project st = (Ok new_examples, st')
    ∧ length new_examples = length records
    ∧ row <$> new_examples = (λ record, Record.create_data record project) <$> records
    ∧ examples st' = examples st ++ new_examples
    ∧ (zip records new_examples).*1 = records
    ∧ (zip records new_examples).*2 = new_examples
    ∧ (∀ i record, records !! i = Some record →
         ∃ example, new_examples !! i = Some example
           ∧ zip records new_examples !! i = Some (record, example)
           ∧ row example = Record.create_data record project
           ∧ pk example = next_pk (examples st) + i
           ∧ example ∈ examples st').
Proof.
  unfold LabeledExamples.create_data, Objects.Example_bulk_create, bulk_insert.
  set (objs := (λ record, Record.create_data record project) <$> records).
  set (new := assign_pks (next_pk (examples st)) objs).
  assert (length new = length records) as Hlen.
  { unfold new, objs. by rewrite length_assign_pks, length_fmap. }
  eexists new, _. split; [reflexivity|]. cbn [examples].
  split; [done|]. split; [apply row_assign_pks|]. split; [done|].
  split; [apply fst_zip; lia|]. split; [apply snd_zip; lia|].
  intros i record Hi.
  assert (objs !! i = Some (Record.create_data record project)) as Hobj.
  { unfold objs. by rewrite list_lookup_fmap, Hi. }
  pose proof (lookup_assign_pks (next_pk (examples st)) objs i _ Hobj) as Hnew.
  fold new in Hnew. eexists. split; [exact Hnew|].
  split; [|split; [done|split; [done|]]].
  - rewrite lookup_zip_with, Hi. simpl. by rewrite Hnew.
  - apply elem_of_app. right. by eapply list_elem_of_lookup_2.
Qed.

(** ** Phase 3: extraction *)

Lemma extract_labels_take (records : list Record.t) (user : User)
    (examples : list (Saved Example)) (mapping : gmap string (Saved LabelType))
    (label_class : option LabelClass) (kwargs : Kwargs) :
  LabeledExamples.extract_labels records user examples mapping label_class kwargs =
    LabeledExamples.extract_labels (take (length examples) records) user
      (take (length records) examples) mapping label_class kwargs.
Proof.
  unfold LabeledExamples.extract_labels. by rewrite zip_with_take_both.
Qed.

(** C9: [extract_labels] does not check that there are as many examples as
    records: the result is that of the two sequences cut to the shorter
    length, so the labels of further records, and further examples, are
    dropped without any error of their own. *)
Theorem extract_labels_truncates_silently (records : list Record.t) (user : User)
    (examples : list (Saved Example)) (mapping : gmap string (Saved LabelType))
    (label_class : option LabelClass) (kwargs : Kwargs) :
  LabeledExamples.extract_labels records user examples mapping label_class kwargs =
    LabeledExamples.extract_labels (take (length examples) records) user
      (take (length records) examples) mapping label_class kwargs
  ∧ (∀ extra_records,
       LabeledExamples.extract_labels (records ++ extra_records) user
         (take (length records) examples) mapping label_class kwargs =
       LabeledExamples.extract_labels records user
         (take (length records) examples) mapping label_class kwargs)
  ∧ (∀ extra_examples,
       LabeledExamples.extract_labels (take (length examples) records) user
         (examples ++ extra_examples) mapping label_class kwargs =
       LabeledExamples.extract_labels (take (length examples) records) user
         examples mapping label_class kwargs).
Proof.
  split; [apply extract_labels_take|split].
  - intros extra. unfold LabeledExamples.extract_labels.
    rewrite zip_with_app_l.
    rewrite drop_ge by (rewrite length_take; lia).
    by rewrite zip_with_nil_r, app_nil_r, take_take, Nat.min_id.
  - intros extra. unfold LabeledExamples.extract_labels.
    rewrite zip_with_app_r.
    rewrite (drop_ge (take _ _)) by (rewrite length_take; lia).
    simpl. by rewrite app_nil_r, take_take, Nat.min_id.
Qed.

(** ** The text variant *)

Lemma comprehension_as_text_label (rows : list TextLabelModel) :
  comprehension as_text_label (TextLabel <$> rows) = Ok rows.
Proof.
  induction rows as [|x rows IH]; [done|].
  change (comprehension as_text_label (TextLabel <$> x :: rows))
    with (ys ← comprehension as_text_label (TextLabel <$> rows); Ok (x :: ys)).
  by rewrite IH.
Qed.

Lemma create_label_text_record (self : Record.t) (user : User) (example : Saved Example)
    (mapping : gmap string (Saved LabelType)) (kwargs : Kwargs) :
  Forall (λ l, isinstance l TextLabelClass) (Record._label self) →
  Record.create_label self user example mapping None kwargs =
    Ok (TextLabel <$> text_rows user (self, example)).
Proof.
  intros Htext. unfold Record.create_label, text_rows.
  rewrite <-list_fmap_compose. apply comprehension_Ok_fmap.
  intros l Hl. rewrite Forall_forall in Htext. specialize (Htext l Hl).
  by destruct l.
Qed.

Lemma extract_labels_text_records (records : list Record.t) (user : User)
    (examples : list (Saved Example)) (mapping : gmap string (Saved LabelType))
    (kwargs : Kwargs) :
  Forall (λ record, Forall (λ l, isinstance l TextLabelClass) (Record._label record)) records →
  LabeledExamples.extract_labels records user examples mapping None kwargs =
    Ok (TextLabel <$> concat (text_rows user <$> zip records examples)).
Proof.
  intros Htext. unfold LabeledExamples.extract_labels.
  rewrite (comprehension_Ok_fmap _ (λ pair, TextLabel <$> text_rows user pair)).
  - cbn [fmap result_fmap]. f_equal. apply concat_fmap_fmap.
  - intros [record example] Hin. apply create_label_text_record.
    rewrite Forall_forall in Htext. apply Htext. by eapply elem_of_zip_l.
Qed.

(** Whatever the batch, and whether or not it raises, [TextExamples.create]
    leaves the three label-type tables as they were. *)
Lemma text_create_label_types_frame (records : list Record.t) (project : Project)
    (user : User) (st : Store) (c : LabelTypeClass) :
  label_types (TextExamples.create records project user st).2 c = label_types st c.
Proof.
  unfold TextExamples.create, TextExamples.create_label, LabeledExamples.create_data,
    Objects.Example_bulk_create, Objects.TextLabel_bulk_create, lift, mbind, M_bind.
  simpl.
  destruct (LabeledExamples.extract_labels _ _ _ _ _ _) as [texts|e]; simpl;
    [|by destruct c].
  destruct (comprehension as_text_label texts); by destruct c.
Qed.

(** Whatever the batch and the examples, and whether or not it raises,
    [TextExamples.create_label] leaves the three label-type tables as they
    were. *)
Lemma text_create_label_keeps_label_types (records : list Record.t) (project : Project)
    (user : User) (batch_examples : list (Saved Example)) (st : Store)
    (c : LabelTypeClass) :
  label_types (TextExamples.create_label records project user batch_examples st).2 c =
    label_types st c.
Proof.
  unfold TextExamples.create_label, Objects.TextLabel_bulk_create, lift, mbind, M_bind.
  simpl.
  destruct (LabeledExamples.extract_labels _ _ _ _ _ _) as [texts|e]; simpl; [|done].
  destruct (comprehension as_text_label texts); by destruct c.
Qed.

(** ** Phase 2: label types *)

Lemma keys_app (t1 t2 : list (Saved LabelType)) : keys (t1 ++ t2) = keys t1 ++ keys t2.
Proof. apply fmap_app. Qed.

Lemma ignore_conflicts_prefix (objs : list LabelType) (tbl : list (Saved LabelType)) :
  tbl `prefix_of` bulk_insert_ignore_conflicts tbl objs.
Proof.
  revert tbl. induction objs as [|x objs IH]; intros tbl; simpl; [done|].
  case_decide; [apply IH|].
  etrans; [|apply IH]. by apply prefix_app_r.
Qed.

Lemma ignore_conflicts_NoDup (objs : list LabelType) (tbl : list (Saved LabelType)) :
  NoDup (keys tbl) → NoDup (keys (bulk_insert_ignore_conflicts tbl objs)).
Proof.
  revert tbl. induction objs as [|x objs IH]; intros tbl Hnd; simpl; [done|].
  case_decide as Hin; [by apply IH|].
  apply IH. rewrite keys_app. apply NoDup_app. split; [done|].
  split; [|apply NoDup_singleton].
  intros k Hk. simpl. rewrite list_elem_of_singleton. intros ->. by apply Hin.
Qed.

Lemma ignore_conflicts_covers (objs : list LabelType) (tbl : list (Saved LabelType))
    (x : LabelType) :
  x ∈ objs → unique_key x ∈ keys (bulk_insert_ignore_conflicts tbl objs).
Proof.
  revert tbl. induction objs as [|y objs IH]; intros tbl Hin; [by apply elem_of_nil in Hin|].
  simpl. apply elem_of_cons in Hin as [->|Hin].
  - case_decide as Hk.
    + destruct (ignore_conflicts_prefix objs tbl) as [added ->].
      rewrite keys_app. apply elem_of_app. by left.
    + destruct (ignore_conflicts_prefix objs (tbl ++ [mkSaved (next_pk tbl) y]))
        as [added ->].
      rewrite !keys_app, !elem_of_app. left. right. simpl. by left.
  - case_decide; by apply IH.
Qed.

Lemma ignore_conflicts_noop (objs : list LabelType) (tbl : list (Saved LabelType)) :
  (∀ x, x ∈ objs → unique_key x ∈ keys tbl) →
  bulk_insert_ignore_conflicts tbl objs = tbl.
Proof.
  induction objs as [|x objs IH]; intros Hall; simpl; [done|].
  rewrite decide_True by (apply Hall; by left).
  apply IH. intros y Hy. apply Hall. by right.
Qed.

Lemma NoDup_key_count {A K} `{EqDecision K} (f : A → K) (l : list A) (k : K) :
  NoDup (f <$> l) → k ∈ f <$> l → length (filter (λ r, f r = k) l) = 1%nat.
Proof.
  induction l as [|a l IH]; [by intros _ ?%elem_of_nil|].
  rewrite fmap_cons. intros [Hnotin Hnd]%NoDup_cons Hin.
  destruct (decide (f a = k)) as [Heq|Hne].
  - rewrite filter_cons_True by done. simpl. f_equal.
    rewrite filter_none; [done|]. apply Forall_forall. intros b Hb Hfb.
    apply Hnotin. rewrite Heq, <-Hfb. apply list_elem_of_fmap. eauto.
  - rewrite filter_cons_False by done. apply IH; [done|].
    apply elem_of_cons in Hin as [?|?]; [congruence|done].
Qed.

(** *** Grouping by class *)

Lemma group_lookup_append {C V} `{EqDecision C} (c c' : C) (x : V)
    (groups : list (C * list V)) :
  Forall (λ g, g.2 ≠ []) groups →
  group_lookup c (group_append c' x groups) =
    if decide (c = c') then group_lookup c groups ++ [x] else group_lookup c groups.
Proof.
  induction groups as [|[d xs] groups IH]; intros Hne; simpl.
  - by repeat case_decide.
  - apply Forall_cons in Hne as [_ Hne]. specialize (IH Hne).
    repeat (case_decide; simpl; simplify_eq); try done.
    all: rewrite IH; by repeat case_decide.
Qed.

Lemma group_append_nonempty {C V} `{EqDecision C} (c : C) (x : V)
    (groups : list (C * list V)) :
  Forall (λ g, g.2 ≠ []) groups → Forall (λ g, g.2 ≠ []) (group_append c x groups).
Proof.
  induction 1 as [|[d xs] groups Hd Hgroups IH]; simpl.
  - by repeat constructor.
  - case_decide; constructor; simpl in *; try done.
    intros Hnil. by apply app_eq_nil in Hnil as [_ ?].
Qed.

Lemma group_append_classes {C V} `{EqDecision C} (c : C) (x : V)
    (groups : list (C * list V)) :
  (group_append c x groups).*1 = if decide (c ∈ groups.*1) then groups.*1 else groups.*1 ++ [c].
Proof.
  induction groups as [|[d xs] groups IH].
  - done.
  - cbn [group_append]. rewrite (fmap_cons fst (d, xs) groups). cbn [fst].
    destruct (decide (c = d)) as [->|Hne].
    + rewrite fmap_cons, decide_True; [done|]. by left.
    + rewrite fmap_cons, IH. cbn [fst].
      destruct (decide (c ∈ groups.*1)) as [Hin|Hnotin].
      * rewrite decide_True; [done|]. by right.
      * rewrite decide_False; [done|]. by intros [?|?]%elem_of_cons.
Qed.

Lemma group_by_class_snoc {C V} `{EqDecision C} (class_of : V → C) (l : list V) (x : V) :
  group_by_class class_of (l ++ [x]) =
    group_append (class_of x) x (group_by_class class_of l).
Proof. unfold group_by_class. by rewrite foldl_app. Qed.

Lemma group_by_class_spec {C V} `{EqDecision C} (class_of : V → C) (l : list V) :
  NoDup (group_by_class class_of l).*1
  ∧ Forall (λ g, g.2 ≠ []) (group_by_class class_of l)
  ∧ ∀ c, group_lookup c (group_by_class class_of l) = filter (λ x, class_of x = c) l.
Proof.
  induction l as [|x l IH] using rev_ind.
  - split; [constructor|]. split; [constructor|done].
  - destruct IH as (Hnd & Hne & Hlook). rewrite group_by_class_snoc.
    split; [|split].
    + rewrite group_append_classes. case_decide as Hin; [done|].
      apply NoDup_app. split; [done|]. split; [|apply NoDup_singleton].
      intros c Hc ->%list_elem_of_singleton. done.
    + by apply group_append_nonempty.
    + intros c. rewrite group_lookup_append by done. rewrite filter_app, Hlook.
      destruct (decide (c = class_of x)) as [->|Hc].
      * by rewrite filter_cons_True.
      * rewrite filter_cons_False by done. by rewrite app_nil_r.
Qed.

Lemma group_lookup_absent {C V} `{EqDecision C} (c : C) (groups : list (C * list V)) :
  c ∉ groups.*1 → group_lookup c groups = [].
Proof.
  induction groups as [|[d xs] groups IH]; simpl; [done|].
  intros Hnotin. rewrite decide_False; [|intros ->; apply Hnotin; by left].
  apply IH. intros Hin. apply Hnotin. by right.
Qed.

(** *** The deriver *)

Lemma with_label_types_id (st : Store) : with_label_types st (label_types st) = st.
Proof. by destruct st. Qed.

Lemma label_types_with (st : Store) (tables : LabelTypeClass → list (Saved LabelType))
    (c : LabelTypeClass) :
  label_types (with_label_types st tables) c = tables c.
Proof. by destruct c. Qed.

Lemma for_each_groups (groups : list (LabelTypeClass * list LabelType)) (st : Store) :
  NoDup groups.*1 →
  LabeledExamples.for_each
    (λ '(label_type_class, instances),
       Objects.LabelType_bulk_create_ignore_conflicts label_type_class instances)
    groups st =
  (Ok (), with_label_types st
            (λ c, bulk_insert_ignore_conflicts (label_types st c) (group_lookup c groups))).
Proof.
  revert st. induction groups as [|[c' xs] groups IH]; intros st Hnd.
  - simpl. by rewrite with_label_types_id.
  - rewrite fmap_cons in Hnd. apply NoDup_cons in Hnd as [Hnotin Hnd].
    cbn [LabeledExamples.for_each]. unfold mbind, M_bind.
    unfold Objects.LabelType_bulk_create_ignore_conflicts at 1.
    rewrite IH by done. f_equal.
    pose proof (group_lookup_absent c' groups Hnotin) as Habs.
    unfold with_label_types. cbn [group_lookup].
    destruct c'; cbn [set_label_types label_types examples category_types span_types
      relation_types categories spans text_labels relations];
      repeat (rewrite decide_True by done); repeat (rewrite decide_False by done);
      rewrite ?Habs; reflexivity.
Qed.

Lemma create_label_type_spec (records : list Record.t) (project : Project) (st : Store) :
  LabeledExamples.create_label_type records project st =
    (Ok (), with_label_types st
              (λ c, bulk_insert_ignore_conflicts (label_types st c)
                      (filter (λ x, lt_class x = c) (implied_types records project)))).
Proof.
  unfold LabeledExamples.create_label_type. fold (implied_types records project).
  destruct (group_by_class_spec lt_class (implied_types records project))
    as (Hnd & _ & Hlook).
  rewrite for_each_groups by done. f_equal.
  unfold with_label_types. by rewrite !Hlook.
Qed.

(** C4: on a store whose label-type tables hold each (project, text) key at
    most once, [create_label_type] raises nothing and leaves exactly one row
    for every label type the batch implies, however often the batch implies
    it; the rows already there are kept, the keys stay unique, and running
    the same batch again changes nothing. *)
Theorem create_label_type_idempotent (records : list Record.t) (project : Project)
    (st : Store) :
  (∀ c, NoDup (keys (label_types st c))) →
  ∃ st',
    LabeledExamples.create_label_type records project st = (Ok (), st')
    ∧ (∀ ty, ty ∈ implied_types records project →
         length (filter (λ r, unique_key (row r) = unique_key ty)
                   (label_types st' (lt_class ty))) = 1%nat)
    ∧ LabeledExamples.create_label_type records project st' = (Ok (), st')
    ∧ (∀ c, NoDup (keys (label_types st' c)))
    ∧ (∀ c, label_types st c `prefix_of` label_types st' c).
Proof.
  intros Hnd. rewrite create_label_type_spec.
  set (tables := λ c, bulk_insert_ignore_conflicts (label_types st c)
                        (filter (λ x, lt_class x = c) (implied_types records project))).
  exists (with_label_types st tables). split; [done|].
  assert (∀ c, NoDup (keys (tables c))) as Hnd'.
  { intros c. by apply ignore_conflicts_NoDup. }
  assert (∀ ty, ty ∈ implied_types records project →
            unique_key ty ∈ keys (tables (lt_class ty))) as Hcov.
  { intros ty Hty. apply ignore_conflicts_covers. by apply list_elem_of_filter. }
  split; [|split; [|split]].
  - intros ty Hty. rewrite label_types_with.
    apply (NoDup_key_count (unique_key ∘ row)); [apply Hnd'|by apply Hcov].
  - rewrite create_label_type_spec. f_equal.
    assert (∀ c, bulk_insert_ignore_conflicts (label_types (with_label_types st tables) c)
                   (filter (λ x, lt_class x = c) (implied_types records project)) =
                 tables c) as Hnoop.
    { intros c. rewrite label_types_with. apply ignore_conflicts_noop.
      intros x [<- Hx]%list_elem_of_filter. by apply Hcov. }
    unfold with_label_types at 1. rewrite !Hnoop. reflexivity.
  - intros c. rewrite label_types_with. apply Hnd'.
  - intros c. rewrite label_types_with. apply ignore_conflicts_prefix.
Qed.

(** ** Dictionaries built by comprehension *)

Lemma dict_of_snoc `{Countable K} {V} (kvs : list (K * V)) (k : K) (v : V) :
  dict_of (kvs ++ [(k, v)]) = <[k := v]> (dict_of kvs).
Proof. unfold dict_of. by rewrite foldl_app. Qed.

Lemma dict_of_lookup_Some `{Countable K} {V} (kvs : list (K * V)) (k : K) (v : V) :
  dict_of kvs !! k = Some v → (k, v) ∈ kvs.
Proof.
  induction kvs as [|[k' v'] kvs IH] using rev_ind; [done|].
  rewrite dict_of_snoc, elem_of_app, list_elem_of_singleton.
  destruct (decide (k' = k)) as [->|Hne].
  - rewrite lookup_insert_eq. intros [= ->]. by right.
  - rewrite lookup_insert_ne by done. intros ?%IH. by left.
Qed.

Lemma dict_of_lookup_None `{Countable K} {V} (kvs : list (K * V)) (k : K) :
  dict_of kvs !! k = None ↔ k ∉ kvs.*1.
Proof.
  induction kvs as [|[k' v'] kvs IH] using rev_ind.
  - split; [intros _; apply not_elem_of_nil|done].
  - rewrite dict_of_snoc, fmap_app, elem_of_app. simpl. rewrite list_elem_of_singleton.
    destruct (decide (k' = k)) as [->|Hne].
    + rewrite lookup_insert_eq. split; [done|]. intros Hn. destruct Hn. by right.
    + rewrite lookup_insert_ne by done. rewrite IH.
      split; [intros Hn [?|?]; [done|congruence]|].
      intros Hn Hin. apply Hn. by left.
Qed.

(** A later part of the pairs takes precedence over an earlier one. *)
Lemma dict_of_app_lookup `{Countable K} {V} (kvs1 kvs2 : list (K * V)) (k : K) :
  dict_of (kvs1 ++ kvs2) !! k =
    match dict_of kvs2 !! k with
    | Some v => Some v
    | None => dict_of kvs1 !! k
    end.
Proof.
  induction kvs2 as [|[k' v'] kvs2 IH] using rev_ind.
  - by rewrite app_nil_r.
  - rewrite app_assoc, !dict_of_snoc.
    destruct (decide (k' = k)) as [->|Hne].
    + by rewrite !lookup_insert_eq.
    + by rewrite !lookup_insert_ne.
Qed.

(** ** Comprehensions over mapped and flattened lists *)

Lemma comprehension_fmap {A B C} (f : B → result C) (g : A → B) (l : list A) :
  comprehension f (g <$> l) = comprehension (f ∘ g) l.
Proof.
  induction l as [|x l IH]; [done|].
  rewrite fmap_cons. cbn [comprehension]. by rewrite IH.
Qed.

Lemma comprehension_concat {A B C} (f : B → result C) (g : A → list B) (l : list A) :
  (λ per_record, concat per_record) <$> comprehension (λ x, comprehension f (g x)) l =
    comprehension f (concat (g <$> l)).
Proof.
  induction l as [|x l IH]; [done|].
  rewrite fmap_cons, concat_cons, comprehension_app. cbn [comprehension].
  rewrite <-IH.
  destruct (comprehension f (g x)) as [ys|e]; [|done].
  by destruct (comprehension (λ x0, comprehension f (g x0)) l).
Qed.

(** ** The span and relation labels of a batch *)

Lemma filter_spans (labels : list Label) :
  filter (λ l, isinstance l SpanLabel) labels =
    LSpan <$> omap (λ l, match l with LSpan s => Some s | _ => None end) labels.
Proof.
  induction labels as [|l labels IH]; [done|].
  destruct l; cbn [omap list_omap];
    (rewrite filter_cons_True by done) || (rewrite filter_cons_False by (by intros ?));
    by rewrite IH.
Qed.

Lemma filter_relations (labels : list Label) :
  filter (λ l, isinstance l RelationLabel) labels =
    LRelation <$> omap (λ l, match l with LRelation r => Some r | _ => None end) labels.
Proof.
  induction labels as [|l labels IH]; [done|].
  destruct l; cbn [omap list_omap];
    (rewrite filter_cons_True by done) || (rewrite filter_cons_False by (by intros ?));
    by rewrite IH.
Qed.

Lemma select_label_spans (record : Record.t) :
  Record.select_label record SpanLabel = LSpan <$> spans_of record.
Proof. apply filter_spans. Qed.

Lemma original_spans_batch (records : list Record.t) :
  concat ((λ example, Record.select_label example SpanLabel) <$> records) =
    LSpan <$> batch_spans records.
Proof.
  unfold batch_spans. rewrite <-concat_fmap_fmap.
  f_equal. apply list_fmap_ext. intros _ record _. apply select_label_spans.
Qed.

Lemma extract_labels_spans (records : list Record.t) (user : User)
    (examples : list (Saved Example)) (mapping : gmap string (Saved LabelType)) :
  LabeledExamples.extract_labels records user examples mapping (Some SpanLabel) no_kwargs =
    comprehension (span_row user mapping) (span_pairs records examples).
Proof.
  unfold LabeledExamples.extract_labels, span_pairs.
  rewrite <-comprehension_concat. f_equal.
  apply comprehension_ext. intros [record example] _.
  unfold Record.create_label. rewrite filter_spans. fold (spans_of record).
  by rewrite !comprehension_fmap.
Qed.

Lemma extract_labels_relations (records : list Record.t) (user : User)
    (examples : list (Saved Example)) (mapping : gmap string (Saved LabelType))
    (kwargs : Kwargs) :
  LabeledExamples.extract_labels records user examples mapping (Some RelationLabel) kwargs =
    comprehension (relation_row user mapping kwargs) (relation_pairs records examples).
Proof.
  unfold LabeledExamples.extract_labels, relation_pairs.
  rewrite <-comprehension_concat. f_equal.
  apply comprehension_ext. intros [record example] _.
  unfold Record.create_label. rewrite filter_relations. fold (relations_of record).
  by rewrite !comprehension_fmap.
Qed.

(** ** The relation variant *)

Lemma create_mapping_run (project : Project) (label_type : LabelTypeClass) (st : Store) :
  LabeledExamples.create_mapping project label_type st =
    (Ok (mapping_of st project label_type), st).
Proof. done. Qed.

Lemma mapping_of_lookup (st : Store) (project : Project) (c : LabelTypeClass)
    (name : string) (ty : Saved LabelType) :
  mapping_of st project c !! name = Some ty →
  ty ∈ label_types st c ∧ lt_project (row ty) = project ∧ lt_text (row ty) = name.
Proof.
  intros Hl%dict_of_lookup_Some.
  apply list_elem_of_fmap in Hl as (r & [= -> ->] & Hr).
  apply list_elem_of_filter in Hr as [Hp Hr]. done.
Qed.

Lemma comprehension_model_uuid (rows : list SpanModel) :
  comprehension model_uuid (Span <$> rows) = Ok (sp_uuid <$> rows).
Proof.
  rewrite comprehension_fmap. by apply comprehension_Ok_fmap.
Qed.

Lemma comprehension_as_span (rows : list SpanModel) :
  comprehension as_span (Span <$> rows) = Ok rows.
Proof.
  rewrite comprehension_fmap.
  rewrite (comprehension_Ok_fmap _ (λ x, x)) by done. by rewrite list_fmap_id.
Qed.

Lemma comprehension_as_relation (rows : list RelationModel) :
  comprehension as_relation (Relation <$> rows) = Ok rows.
Proof.
  rewrite comprehension_fmap.
  rewrite (comprehension_Ok_fmap _ (λ x, x)) by done. by rewrite list_fmap_id.
Qed.

Lemma span_row_Ok_inv (user : User) (mapping : gmap string (Saved LabelType))
    (p : SpanL * Saved Example) (m : LabelModel) :
  span_row user mapping p = Ok m →
  ∃ ty, mapping !! span_label p.1 = Some ty ∧ m = Span (span_model user ty p).
Proof.
  unfold span_row, LabelOps.create, getitem.
  destruct (mapping !! span_label p.1) as [ty|]; simpl; [|done].
  intros [= <-]. eauto.
Qed.

Lemma span_row_Raise_inv (user : User) (mapping : gmap string (Saved LabelType))
    (p : SpanL * Saved Example) (e : exn) :
  span_row user mapping p = Raise e → ∃ k, e = KeyError k.
Proof.
  unfold span_row, LabelOps.create, getitem.
  destruct (mapping !! span_label p.1) as [ty|]; simpl; [done|].
  intros [= <-]. eauto.
Qed.

Lemma relation_row_Raise_inv (user : User) (mapping : gmap string (Saved LabelType))
    (kwargs : Kwargs) (p : RelationL * Saved Example) (e : exn) :
  relation_row user mapping kwargs p = Raise e → ∃ k, e = KeyError k.
Proof.
  unfold relation_row, LabelOps.create, getitem, kwargs_span_mapping, getitemZ.
  destruct (mapping !! type p.1); simpl; [|intros [= <-]; eauto].
  destruct (span_mapping kwargs) as [sm|]; simpl; [|intros [= <-]; eauto].
  destruct (sm !! from_id p.1); simpl; [|intros [= <-]; eauto].
  destruct (sm !! to_id p.1); simpl; [done|intros [= <-]; eauto].
Qed.

(** The durable spans extracted for a batch, when extraction succeeds. *)
Lemma span_rows_inv (user : User) (mapping : gmap string (Saved LabelType))
    (pairs : list (SpanL * Saved Example)) (labels : list LabelModel) :
  comprehension (span_row user mapping) pairs = Ok labels →
  ∃ rows, labels = Span <$> rows ∧
    Forall2 (λ p d, ∃ ty, mapping !! span_label p.1 = Some ty ∧ d = span_model user ty p)
      pairs rows.
Proof.
  intros Hc%comprehension_Ok_inv.
  induction Hc as [|p m pairs labels Hp _ (rows & -> & Hrows)].
  - exists []. split; [done|constructor].
  - apply span_row_Ok_inv in Hp as (ty & Hty & ->).
    exists (span_model user ty p :: rows). split; [done|]. constructor; eauto.
Qed.

(** The run of [RelationExamples.create_label], stage by stage. *)
Lemma relation_create_label_run (records : list Record.t) (project : Project)
    (user : User) (examples : list (Saved Example)) (st : Store) :
  RelationExamples.create_label records project user examples st =
    match comprehension (span_row user (mapping_of st project SpanType))
            (span_pairs records examples) with
    | Raise e => (Raise e, st)
    | Ok labels =>
        match comprehension model_uuid labels with
        | Raise e => (Raise e, st)
        | Ok uuids =>
            match Objects.Span_bulk_create labels st with
            | (Raise e, st1) => (Raise e, st1)
            | (Ok _, st1) =>
                match RelationExamples.build_id_to_span (uuid_to_span_of st1 uuids)
                        (LSpan <$> batch_spans records) with
                | Raise e => (Raise e, st1)
                | Ok id_to_span =>
                    match comprehension
                            (relation_row user (mapping_of st project RelationType)
                               (mkKwargs (Some id_to_span)))
                            (relation_pairs records examples) with
                    | Raise e => (Raise e, st1)
                    | Ok relations => Objects.Relation_bulk_create relations st1
                    end
                end
            end
        end
    end.
Proof.
  unfold RelationExamples.create_label.
  unfold mbind at 1, M_bind at 1. rewrite create_mapping_run.
  unfold mbind at 1, M_bind at 1. rewrite create_mapping_run.
  unfold mbind at 1, M_bind at 1, lift at 1. rewrite extract_labels_spans.
  destruct (comprehension (span_row _ _) _) as [labels|e]; [|done].
  unfold mbind at 1, M_bind at 1, lift at 1.
  destruct (comprehension model_uuid labels) as [uuids|e]; [|done].
  unfold mbind at 1, M_bind at 1.
  destruct (Objects.Span_bulk_create labels st) as [[[]|e] st1]; [|done].
  rewrite original_spans_batch.
  unfold mbind at 1, M_bind at 1, Objects.Span_filter_uuid_in, query.
  fold (uuid_to_span_of st1 uuids).
  unfold mbind at 1, M_bind at 1, lift at 1.
  destruct (RelationExamples.build_id_to_span _ _) as [id_to_span|e]; [|done].
  unfold mbind at 1, M_bind at 1, lift at 1. rewrite extract_labels_relations.
  by destruct (comprehension (relation_row _ _ _) _).
Qed.

Lemma comprehension_is_Ok {A B} (f : A → result B) (l : list A) :
  (∀ x, x ∈ l → is_Ok (f x)) → is_Ok (comprehension f l).
Proof.
  induction l as [|x l IH]; intros Hall; [by eexists|].
  destruct (Hall x) as [y Hy]; [by left|].
  destruct IH as [ys Hys]; [intros z Hz; apply Hall; by right|].
  exists (y :: ys). cbn [comprehension]. by rewrite Hy, Hys.
Qed.

Lemma comprehension_Raise_inv {A B} (f : A → result B) (l : list A) (e : exn) :
  comprehension f l = Raise e → ∃ x, x ∈ l ∧ f x = Raise e.
Proof.
  induction l as [|x l IH]; [done|]. cbn [comprehension].
  destruct (f x) as [y|e'] eqn:Hx; simpl.
  - destruct (comprehension f l) as [ys|e'']; simpl; [done|].
    intros [= ->]. destruct IH as (x' & Hin & Hx'); [done|].
    exists x'. split; [by right|done].
  - intros [= ->]. exists x. split; [by left|done].
Qed.

#[global] Instance Span_inj : Inj (=) (=) Span.
Proof. by intros ?? [=]. Qed.

Lemma Span_bulk_create_run (rows : list SpanModel) (st : Store) :
  Objects.Span_bulk_create (Span <$> rows) st = (Ok (), with_new_spans st rows).
Proof. unfold Objects.Span_bulk_create. by rewrite comprehension_as_span. Qed.

Lemma Relation_bulk_create_run (rows : list RelationModel) (st : Store) :
  Objects.Relation_bulk_create (Relation <$> rows) st = (Ok (), with_new_relations st rows).
Proof. unfold Objects.Relation_bulk_create. by rewrite comprehension_as_relation. Qed.

Lemma Relation_bulk_create_spans (objs : list LabelModel) (st : Store) :
  spans (Objects.Relation_bulk_create objs st).2 = spans st.
Proof.
  unfold Objects.Relation_bulk_create. by destruct (comprehension as_relation objs).
Qed.

(** After the span stage the later stages leave the span table alone. *)
Lemma relation_create_label_spans (records : list Record.t) (project : Project)
    (user : User) (examples : list (Saved Example)) (st : Store) :
  let st' := (RelationExamples.create_label records project user examples st).2 in
  match comprehension (span_row user (mapping_of st project SpanType))
          (span_pairs records examples) with
  | Raise _ => spans st' = spans st
  | Ok labels =>
      ∃ rows, labels = Span <$> rows
        ∧ spans st' = spans st ++ assign_pks (next_pk (spans st)) rows
  end.
Proof.
  cbn zeta. rewrite relation_create_label_run.
  destruct (comprehension (span_row _ _) _) as [labels|e] eqn:Hspans; [|done].
  destruct (span_rows_inv _ _ _ _ Hspans) as (rows & -> & _).
  exists rows. split; [done|].
  rewrite comprehension_model_uuid, Span_bulk_create_run.
  destruct (RelationExamples.build_id_to_span _ _); [|done].
  destruct (comprehension (relation_row _ _ _) _); [|done].
  by rewrite Relation_bulk_create_spans.
Qed.

Lemma Forall2_assign_pks {A B} (P : A → B → Prop) (n : nat) (rows : list A) (l : list B) :
  Forall2 P rows l → Forall2 (λ d y, P (row d) y) (assign_pks n rows) l.
Proof.
  intros H. revert n. induction H as [|x y rows l Hxy _ IH]; intros n; simpl;
    constructor; [done|apply IH].
Qed.

(** C5: every durable span that [RelationExamples.create_label] persists
    carries the uuid (and the offsets and example) of the span label it was
    made from, in the order of the batch; and when no span stored before has
    a uuid of the batch, filtering the span table on the uuids just inserted
    returns the durable spans of this batch and no other row. *)
Theorem span_uuid_preserved (records : list Record.t) (project : Project)
    (user : User) (examples : list (Saved Example)) (st : Store) :
  (∀ d p, d ∈ spans st → p ∈ span_pairs records examples →
          sp_uuid (row d) ≠ uuid p.1) →
  ∃ new_spans,
    let st' := (RelationExamples.create_label records project user examples st).2 in
    let derived := λ (d : Saved SpanModel) (p : SpanL * Saved Example),
      sp_uuid (row d) = uuid p.1 ∧ sp_example (row d) = p.2
      ∧ sp_start_offset (row d) = start_offset p.1
      ∧ sp_end_offset (row d) = end_offset p.1 in
    spans st' = spans st ++ new_spans
    ∧ (new_spans = [] ∨ Forall2 derived new_spans (span_pairs records examples))
    ∧ ((∀ p, p ∈ span_pairs records examples →
             is_Some (mapping_of st project SpanType !! span_label p.1)) →
       Forall2 derived new_spans (span_pairs records examples))
    ∧ filter (λ d, sp_uuid (row d) ∈ (sp_uuid ∘ row) <$> new_spans) (spans st') = new_spans.
Proof.
  intros Hfresh.
  pose proof (relation_create_label_spans records project user examples st) as Hrun.
  cbn zeta in Hrun.
  destruct (comprehension (span_row _ _) _) as [labels|e] eqn:Hspans.
  - destruct Hrun as (rows & -> & Hst').
    exists (assign_pks (next_pk (spans st)) rows). cbn zeta.
    apply span_rows_inv in Hspans as (rows' & ->%(inj (fmap Span)) & Hrows).
    assert (Forall2 (λ d p, sp_uuid (row d) = uuid p.1 ∧ sp_example (row d) = p.2
                            ∧ sp_start_offset (row d) = start_offset p.1
                            ∧ sp_end_offset (row d) = end_offset p.1)
              (assign_pks (next_pk (spans st)) rows') (span_pairs records examples))
      as Hderived.
    { apply (Forall2_assign_pks (λ r p, sp_uuid r = uuid p.1 ∧ sp_example r = p.2
                                   ∧ sp_start_offset r = start_offset p.1
                                   ∧ sp_end_offset r = end_offset p.1)).
      apply Forall2_flip. eapply Forall2_impl; [exact Hrows|].
      intros p d (ty & _ & ->). done. }
    split; [done|]. split; [by right|]. split; [done|].
    rewrite Hst', filter_app.
    rewrite (filter_none _ (spans st)), (filter_all _ (assign_pks _ _)); [done| |].
    + apply Forall_forall. intros d Hd. apply list_elem_of_fmap. eauto.
    + apply Forall_forall. intros d Hd Hin.
      apply list_elem_of_fmap in Hin as (d' & Heq & Hd').
      destruct (proj1 (list_elem_of_lookup _ _) Hd') as [i Hi].
      destruct (Forall2_lookup_l _ _ _ _ _ Hderived Hi) as (p & Hp & Hu & _).
      apply (Hfresh d p); [done|by eapply list_elem_of_lookup_2|].
      simpl in Heq. congruence.
  - exists []. cbn zeta. rewrite app_nil_r. split; [done|]. split; [by left|].
    split; [|apply filter_none, Forall_forall; intros d _ Hin; by apply elem_of_nil in Hin].
    intros Hnames. exfalso.
    destruct (comprehension_is_Ok (span_row user (mapping_of st project SpanType))
                (span_pairs records examples)) as [ys Hys]; [|congruence].
    intros p Hp. destruct (Hnames p Hp) as [ty Hty].
    eexists. unfold span_row, LabelOps.create, getitem. by rewrite Hty.
Qed.

(** *** The identity-to-span dictionary *)

Lemma elem_of_concat {A} (x : A) (ls : list (list A)) :
  x ∈ concat ls ↔ ∃ l, l ∈ ls ∧ x ∈ l.
Proof.
  induction ls as [|l ls IH].
  - split; [by intros ?%elem_of_nil|by intros (? & ?%elem_of_nil & _)].
  - rewrite concat_cons, elem_of_app, IH. split.
    + intros [Hx|(l' & Hl' & Hx)]; [exists l; split; [by left|done]|].
      exists l'. split; [by right|done].
    + intros (l' & [->|Hl']%elem_of_cons & Hx); [by left|right; eauto].
Qed.

Lemma elem_of_relation_pairs (records : list Record.t) (examples : list (Saved Example))
    (record : Record.t) (example : Saved Example) (r : RelationL) :
  (record, example) ∈ zip records examples →
  LRelation r ∈ Record._label record →
  (r, example) ∈ relation_pairs records examples.
Proof.
  intros Hzip Hr. unfold relation_pairs. apply elem_of_concat.
  exists ((λ r, (r, example)) <$> relations_of record). split.
  - apply list_elem_of_fmap. by exists (record, example).
  - apply list_elem_of_fmap. exists r. split; [done|].
    apply list_elem_of_omap. by exists (LRelation r).
Qed.

Lemma build_id_to_span_entries (uuid_to_span : gmap UUID (Saved SpanModel))
    (all : list SpanL) :
  RelationExamples.build_id_to_span uuid_to_span (LSpan <$> all) =
    dict_of <$> comprehension (id_entry uuid_to_span) all.
Proof.
  unfold RelationExamples.build_id_to_span. by rewrite comprehension_fmap.
Qed.

Lemma build_id_to_span_Ok_inv (uuid_to_span : gmap UUID (Saved SpanModel))
    (all : list SpanL) (id_to_span : gmap Z (Saved SpanModel)) :
  RelationExamples.build_id_to_span uuid_to_span (LSpan <$> all) = Ok id_to_span →
  (∀ k d, id_to_span !! k = Some d →
          ∃ s, s ∈ all ∧ id s = k ∧ uuid_to_span !! uuid s = Some d)
  ∧ (∀ k, id_to_span !! k = None ↔ k ∉ id <$> all).
Proof.
  rewrite build_id_to_span_entries.
  destruct (comprehension (id_entry uuid_to_span) all) as [kvs|e] eqn:Hkvs; [|done].
  intros [= <-]. apply comprehension_Ok_inv in Hkvs.
  assert (Forall2 (λ s kv, kv.1 = id s ∧ uuid_to_span !! uuid s = Some kv.2) all kvs)
    as Hentries.
  { eapply Forall2_impl; [exact Hkvs|]. intros s kv. unfold id_entry, getitem.
    destruct (uuid_to_span !! uuid s); simpl; [|done]. by intros [= <-]. }
  split.
  - intros k d Hk%dict_of_lookup_Some.
    destruct (proj1 (list_elem_of_lookup _ _) Hk) as [i Hi].
    destruct (Forall2_lookup_r _ _ _ _ _ Hentries Hi) as (s & Hs & Hid & Hu).
    exists s. split; [by eapply list_elem_of_lookup_2|]. done.
  - intros k. rewrite dict_of_lookup_None.
    assert (kvs.*1 = id <$> all) as ->; [|done].
    clear Hkvs. induction Hentries as [|s kv all kvs [Hid _] _ IH]; [done|].
    by rewrite !fmap_cons, IH, Hid.
Qed.

Lemma build_id_to_span_Raise_inv (uuid_to_span : gmap UUID (Saved SpanModel))
    (all : list SpanL) (e : exn) :
  RelationExamples.build_id_to_span uuid_to_span (LSpan <$> all) = Raise e →
  ∃ k, e = KeyError k.
Proof.
  rewrite build_id_to_span_entries.
  destruct (comprehension (id_entry uuid_to_span) all) as [kvs|e'] eqn:Hkvs; [done|].
  intros [= <-]. apply comprehension_Raise_inv in Hkvs as (s & _ & Hs).
  unfold id_entry, getitem in Hs. destruct (uuid_to_span !! uuid s); simplify_eq/=. eauto.
Qed.

Lemma build_id_to_span_is_Ok (uuid_to_span : gmap UUID (Saved SpanModel))
    (all : list SpanL) :
  (∀ s, s ∈ all → is_Some (uuid_to_span !! uuid s)) →
  is_Ok (RelationExamples.build_id_to_span uuid_to_span (LSpan <$> all)).
Proof.
  intros Hall. rewrite build_id_to_span_entries.
  destruct (comprehension_is_Ok (id_entry uuid_to_span) all) as [kvs ->]; [|by eexists].
  intros s Hs. destruct (Hall s Hs) as [d Hd].
  eexists. unfold id_entry, getitem. by rewrite Hd.
Qed.

Lemma relation_row_dangling (user : User) (mapping : gmap string (Saved LabelType))
    (sm : gmap Z (Saved SpanModel)) (p : RelationL * Saved Example) :
  sm !! from_id p.1 = None ∨ sm !! to_id p.1 = None →
  ∃ k, relation_row user mapping (mkKwargs (Some sm)) p = Raise (KeyError k).
Proof.
  intros Hdangling.
  destruct (relation_row user mapping (mkKwargs (Some sm)) p) as [m|e] eqn:Hrow.
  - exfalso. revert Hrow.
    unfold relation_row, LabelOps.create, getitem, kwargs_span_mapping, getitemZ. simpl.
    destruct (mapping !! type p.1); simpl; [|done].
    destruct Hdangling as [-> | Hto]; [done|].
    destruct (sm !! from_id p.1); simpl; [|done]. by rewrite Hto.
  - apply relation_row_Raise_inv in Hrow as [k ->]. eauto.
Qed.

(** C2: when a relation label that meets an example in the batch references
    a span key that no span label of the batch carries (so the key is absent
    from the identity-to-span dictionary), [RelationExamples.create_label]
    ends with a [KeyError] that reaches the caller, and no relation row at
    all is inserted: the relation is neither dropped silently nor stored with
    a missing endpoint. *)
Theorem dangling_relation_raises (records : list Record.t) (project : Project)
    (user : User) (examples : list (Saved Example)) (st : Store)
    (record : Record.t) (example : Saved Example) (r : RelationL) :
  (record, example) ∈ zip records examples →
  LRelation r ∈ Record._label record →
  from_id r ∉ id <$> batch_spans records ∨ to_id r ∉ id <$> batch_spans records →
  ∃ k st',
    RelationExamples.create_label records project user examples st =
      (Raise (KeyError k), st')
    ∧ relations st' = relations st.
Proof.
  intros Hzip Hr Hdangling. rewrite relation_create_label_run.
  destruct (comprehension (span_row _ _) _) as [labels|e] eqn:Hspans.
  - destruct (span_rows_inv _ _ _ _ Hspans) as (rows & -> & _).
    rewrite comprehension_model_uuid, Span_bulk_create_run.
    destruct (RelationExamples.build_id_to_span _ _) as [id_to_span|e] eqn:Hbuild.
    + destruct (build_id_to_span_Ok_inv _ _ _ Hbuild) as [_ Hnone].
      pose proof (elem_of_relation_pairs _ _ _ _ _ Hzip Hr) as Hin.
      destruct (relation_row_dangling user (mapping_of st project RelationType)
                  id_to_span (r, example)) as [k Hk].
      { simpl. rewrite !Hnone. done. }
      destruct (comprehension_Raise _ _ _ _ Hin Hk) as (p' & e' & _ & Hp' & ->).
      apply relation_row_Raise_inv in Hp' as [k' ->]. by eexists _, _.
    + apply build_id_to_span_Raise_inv in Hbuild as [k ->]. by eexists _, _.
  - apply comprehension_Raise_inv in Hspans as (p & _ & Hp).
    apply span_row_Raise_inv in Hp as [k ->]. by eexists _, _.
Qed.

(** *** Resolution of relation endpoints *)

Lemma span_pairs_fst (records : list Record.t) (examples : list (Saved Example)) :
  (length records ≤ length examples)%nat →
  (span_pairs records examples).*1 = batch_spans records.
Proof.
  revert examples. induction records as [|record records IH]; intros [|example examples] Hlen;
    simpl in Hlen; try lia; [done..|].
  unfold span_pairs, batch_spans in *. cbn [zip_with].
  rewrite !fmap_cons, !concat_cons, fmap_app. cbn [fst snd].
  rewrite IH by lia. f_equal.
  rewrite <-list_fmap_compose. apply list_fmap_id.
Qed.

Lemma relation_pairs_fst (records : list Record.t) (examples : list (Saved Example)) :
  (length records ≤ length examples)%nat →
  (relation_pairs records examples).*1 = batch_relations records.
Proof.
  revert examples. induction records as [|record records IH]; intros [|example examples] Hlen;
    simpl in Hlen; try lia; [done..|].
  unfold relation_pairs, batch_relations in *. cbn [zip_with].
  rewrite !fmap_cons, !concat_cons, fmap_app. cbn [fst snd].
  rewrite IH by lia. f_equal.
  rewrite <-list_fmap_compose. apply list_fmap_id.
Qed.

Lemma span_rows_uuids (user : User) (mapping : gmap string (Saved LabelType))
    (pairs : list (SpanL * Saved Example)) (rows : list SpanModel) :
  Forall2 (λ p d, ∃ ty, mapping !! span_label p.1 = Some ty ∧ d = span_model user ty p)
    pairs rows →
  sp_uuid <$> rows = uuid <$> pairs.*1.
Proof.
  induction 1 as [|p d pairs rows (ty & _ & ->) _ IH]; [done|].
  by rewrite !fmap_cons, IH.
Qed.

(** The uuid-to-span dictionary after the span insert: a uuid just inserted
    maps to a row of this batch with that uuid. *)
Lemma uuid_to_span_new (st : Store) (rows : list SpanModel) (u : UUID) :
  u ∈ sp_uuid <$> rows →
  ∃ d, uuid_to_span_of (with_new_spans st rows) (sp_uuid <$> rows) !! u = Some d
    ∧ d ∈ assign_pks (next_pk (spans st)) rows
    ∧ sp_uuid (row d) = u.
Proof.
  intros Hu. unfold uuid_to_span_of, with_new_spans. cbn [spans].
  set (new := assign_pks (next_pk (spans st)) rows).
  assert ((sp_uuid ∘ row) <$> new = sp_uuid <$> rows) as Hnew.
  { unfold new. by rewrite list_fmap_compose, row_assign_pks. }
  rewrite filter_app, fmap_app, dict_of_app_lookup.
  rewrite (filter_all _ new).
  2:{ apply Forall_forall. intros d Hd. rewrite <-Hnew.
      apply list_elem_of_fmap. eauto. }
  destruct (dict_of ((λ span, (sp_uuid (row span), span)) <$> new) !! u) as [d|] eqn:Hd.
  - exists d. split; [done|].
    apply dict_of_lookup_Some, list_elem_of_fmap in Hd as (d' & [= -> ->] & Hd'). done.
  - exfalso. apply dict_of_lookup_None in Hd. apply Hd.
    rewrite <-list_fmap_compose. by rewrite <-Hnew in Hu.
Qed.

Lemma relation_rows_Ok (user : User) (mapping : gmap string (Saved LabelType))
    (sm : gmap Z (Saved SpanModel)) (pairs : list (RelationL * Saved Example)) :
  (∀ p, p ∈ pairs → is_Some (mapping !! type p.1)
                    ∧ is_Some (sm !! from_id p.1) ∧ is_Some (sm !! to_id p.1)) →
  ∃ rows,
    comprehension (relation_row user mapping (mkKwargs (Some sm))) pairs =
      Ok (Relation <$> rows)
    ∧ Forall2 (λ d p, ∃ ty f t,
                 mapping !! type p.1 = Some ty ∧ sm !! from_id p.1 = Some f
                 ∧ sm !! to_id p.1 = Some t ∧ d = mkRelation user p.2 ty f t)
        rows pairs.
Proof.
  induction pairs as [|p pairs IH]; intros Hall.
  - exists []. split; [done|constructor].
  - destruct (Hall p) as ([ty Hty] & [f Hf] & [t Ht]); [by left|].
    destruct IH as (rows & Hrows & Hforall); [intros q Hq; apply Hall; by right|].
    exists (mkRelation user p.2 ty f t :: rows). split.
    + cbn [comprehension]. rewrite Hrows.
      unfold relation_row, LabelOps.create, getitem, kwargs_span_mapping, getitemZ.
      simpl. by rewrite Hty, Hf, Ht.
    + constructor; [|done]. by exists ty, f, t.
Qed.

Lemma NoDup_fmap_elem_inj {A K} (f : A → K) (l : list A) (x y : A) :
  NoDup (f <$> l) → x ∈ l → y ∈ l → f x = f y → x = y.
Proof.
  intros Hnd [i Hi]%list_elem_of_lookup [j Hj]%list_elem_of_lookup Hf.
  assert (i = j) as ->; [|congruence].
  apply (NoDup_lookup (f <$> l) i j (f x)); [done|..].
  - by rewrite list_lookup_fmap, Hi.
  - by rewrite list_lookup_fmap, Hj, Hf.
Qed.

Lemma elem_of_assign_pks {A} (n : nat) (rows : list A) (d : Saved A) :
  d ∈ assign_pks n rows → row d ∈ rows.
Proof.
  intros Hd. rewrite <-(row_assign_pks n rows). apply list_elem_of_fmap. eauto.
Qed.

Lemma elem_of_span_pairs (records : list Record.t) (examples : list (Saved Example))
    (record : Record.t) (example : Saved Example) (s : SpanL) :
  (record, example) ∈ zip records examples → s ∈ spans_of record →
  (s, example) ∈ span_pairs records examples.
Proof.
  intros Hzip Hs. unfold span_pairs. apply elem_of_concat.
  exists ((λ s, (s, example)) <$> spans_of record). split.
  - apply list_elem_of_fmap. by exists (record, example).
  - apply list_elem_of_fmap. eauto.
Qed.

Lemma elem_of_relation_pairs_inv (records : list Record.t)
    (examples : list (Saved Example)) (p : RelationL * Saved Example) :
  p ∈ relation_pairs records examples →
  ∃ record, (record, p.2) ∈ zip records examples ∧ p.1 ∈ relations_of record.
Proof.
  unfold relation_pairs. intros (l & Hl & Hp)%elem_of_concat.
  apply list_elem_of_fmap in Hl as ([record example] & -> & Hzip).
  apply list_elem_of_fmap in Hp as (r & -> & Hr).
  exists record. done.
Qed.

Lemma Forall2_impl_elem {A B} (P Q : A → B → Prop) (l : list A) (k : list B) :
  Forall2 P l k → (∀ x y, y ∈ k → P x y → Q x y) → Forall2 Q l k.
Proof.
  induction 1 as [|x y l k Hxy _ IH]; intros Himpl; constructor.
  - apply Himpl; [by left|done].
  - apply IH. intros x' y' Hy'. apply Himpl. by right.
Qed.

(** The durable span stored for a span label of the batch. *)
Lemma stored_span_of_label (records : list Record.t) (project : Project) (user : User)
    (batch_examples : list (Saved Example)) (st : Store) (rows : list SpanModel)
    (record : Record.t) (example : Saved Example) (s : SpanL) (d : Saved SpanModel) :
  (length records ≤ length batch_examples)%nat →
  NoDup (id <$> batch_spans records) →
  NoDup (uuid <$> batch_spans records) →
  Forall2 (λ p d, ∃ ty, mapping_of st project SpanType !! span_label p.1 = Some ty
                        ∧ d = span_model user ty p)
    (span_pairs records batch_examples) rows →
  (record, example) ∈ zip records batch_examples → s ∈ spans_of record →
  d ∈ assign_pks (next_pk (spans st)) rows → sp_uuid (row d) = uuid s →
  ∃ ty, mapping_of st project SpanType !! span_label s = Some ty
        ∧ row d = span_model user ty (s, example).
Proof.
  intros Hlen Hids Huuids Hrows Hzip Hs Hd Huuid.
  pose proof (span_pairs_fst records batch_examples Hlen) as Hfst.
  apply elem_of_assign_pks, list_elem_of_lookup in Hd as [i Hi].
  destruct (Forall2_lookup_r _ _ _ _ _ Hrows Hi) as ([s' e'] & Hq & ty & Hty & Hrow).
  apply list_elem_of_lookup_2 in Hq.
  pose proof (elem_of_span_pairs _ _ _ _ _ Hzip Hs) as Hown.
  assert (s' ∈ batch_spans records) as Hs'.
  { rewrite <-Hfst. apply list_elem_of_fmap. by exists (s', e'). }
  assert (s ∈ batch_spans records) as Hsb.
  { rewrite <-Hfst. apply list_elem_of_fmap. by exists (s, example). }
  assert (s' = s) as ->.
  { apply (NoDup_fmap_elem_inj uuid (batch_spans records)); [done..|].
    rewrite Hrow in Huuid. by simpl in Huuid. }
  assert ((s, e') = (s, example)) as [= ->].
  { apply (NoDup_fmap_elem_inj (λ q, id q.1) (span_pairs records batch_examples));
      [|done..].
    rewrite <-Hfst, <-list_fmap_compose in Hids. exact Hids. }
  eauto.
Qed.

(** The run of [RelationExamples.create_label] on a batch whose names
    resolve, whose relations reference span keys of their own record, and
    in which no two span labels share a key or a uuid. *)
Lemma relation_create_label_links (records : list Record.t) (project : Project)
    (user : User) (batch_examples : list (Saved Example)) (st : Store) :
  (length records ≤ length batch_examples)%nat →
  (∀ s, s ∈ batch_spans records →
        is_Some (mapping_of st project SpanType !! span_label s)) →
  (∀ r, r ∈ batch_relations records →
        is_Some (mapping_of st project RelationType !! type r)) →
  (∀ record r, record ∈ records → r ∈ relations_of record →
        from_id r ∈ id <$> spans_of record ∧ to_id r ∈ id <$> spans_of record) →
  NoDup (id <$> batch_spans records) →
  NoDup (uuid <$> batch_spans records) →
  ∃ st' new_spans new_relations,
    RelationExamples.create_label records project user batch_examples st = (Ok (), st')
    ∧ spans st' = spans st ++ new_spans
    ∧ relations st' = relations st ++ new_relations
    ∧ (span_pairs records batch_examples).*1 = batch_spans records
    ∧ (relation_pairs records batch_examples).*1 = batch_relations records
    ∧ length new_spans = length (batch_spans records)
    ∧ examples st' = examples st
    ∧ (∀ c, label_types st' c = label_types st c)
    ∧ Forall2 (links records project user st new_spans)
        new_relations (relation_pairs records batch_examples).
Proof.
  intros Hlen Hspan_names Hrel_names Hown Hids Huuids.
  pose proof (span_pairs_fst records batch_examples Hlen) as Hsfst.
  pose proof (relation_pairs_fst records batch_examples Hlen) as Hrfst.
  assert (∀ record s, record ∈ records → s ∈ spans_of record → s ∈ batch_spans records)
    as Hbatch.
  { intros record s Hrecord Hs. apply elem_of_concat.
    exists (spans_of record). split; [apply list_elem_of_fmap; eauto|done]. }
  rewrite relation_create_label_run.
  (* the span stage *)
  destruct (comprehension_is_Ok (span_row user (mapping_of st project SpanType))
              (span_pairs records batch_examples)) as [labels Hlabels].
  { intros p Hp. destruct (Hspan_names p.1) as [ty Hty].
    - rewrite <-Hsfst. apply list_elem_of_fmap. eauto.
    - eexists. unfold span_row, LabelOps.create, getitem. by rewrite Hty. }
  rewrite Hlabels.
  destruct (span_rows_inv _ _ _ _ Hlabels) as (rows & -> & Hrows).
  rewrite comprehension_model_uuid, Span_bulk_create_run.
  set (new_spans := assign_pks (next_pk (spans st)) rows).
  pose proof (span_rows_uuids _ _ _ _ Hrows) as Huu. rewrite Hsfst in Huu.
  (* the identity-to-span dictionary *)
  assert (∀ s, s ∈ batch_spans records →
            ∃ d, uuid_to_span_of (with_new_spans st rows) (sp_uuid <$> rows) !! uuid s = Some d
              ∧ d ∈ new_spans ∧ sp_uuid (row d) = uuid s) as Hu2s.
  { intros s Hs. apply uuid_to_span_new. rewrite Huu.
    apply list_elem_of_fmap. eauto. }
  destruct (build_id_to_span_is_Ok
              (uuid_to_span_of (with_new_spans st rows) (sp_uuid <$> rows))
              (batch_spans records)) as [id_to_span Hbuild].
  { intros s Hs. destruct (Hu2s s Hs) as (d & -> & _). by eexists. }
  rewrite Hbuild.
  destruct (build_id_to_span_Ok_inv _ _ _ Hbuild) as [Hsome Hnone].
  (* the endpoint stored for a key of a record *)
  assert (∀ record example k f,
            (record, example) ∈ zip records batch_examples →
            k ∈ id <$> spans_of record → id_to_span !! k = Some f →
            ∃ s, s ∈ batch_spans records ∧ id s = k
                 ∧ endpoint project user st new_spans example s f) as Hendpoint.
  { intros record example k f Hzip (sk & -> & Hsk)%list_elem_of_fmap Hf.
    pose proof (elem_of_zip_l _ _ _ _ Hzip) as Hrecord.
    destruct (Hsome _ _ Hf) as (s & Hs & Hid & Hu).
    assert (s = sk) as ->.
    { apply (NoDup_fmap_elem_inj id (batch_spans records)); eauto. }
    destruct (Hu2s sk Hs) as (d & Hd & Hnew & Huuid).
    assert (d = f) as -> by congruence.
    exists sk. split; [done|]. split; [done|]. split; [done|].
    by apply (stored_span_of_label records project user batch_examples st rows record). }
  (* the relation stage *)
  destruct (relation_rows_Ok user (mapping_of st project RelationType) id_to_span
              (relation_pairs records batch_examples)) as (rel_rows & Hrel & Hresolved).
  { intros p Hp.
    assert (p.1 ∈ batch_relations records) as Hin.
    { rewrite <-Hrfst. apply list_elem_of_fmap. eauto. }
    destruct (elem_of_relation_pairs_inv _ _ _ Hp) as (record & Hzip & Hr).
    destruct (Hown record p.1 (elem_of_zip_l _ _ _ _ Hzip) Hr) as [Hfrom Hto].
    split; [by apply Hrel_names|].
    split; apply not_eq_None_Some; rewrite Hnone; intros Hk; apply Hk;
      apply list_elem_of_fmap.
    - apply list_elem_of_fmap in Hfrom as (s & -> & Hs).
      exists s. split; [done|]. eapply Hbatch; [|done]. by eapply elem_of_zip_l.
    - apply list_elem_of_fmap in Hto as (s & -> & Hs).
      exists s. split; [done|]. eapply Hbatch; [|done]. by eapply elem_of_zip_l. }
  rewrite Hrel, Relation_bulk_create_run.
  eexists _, new_spans, (assign_pks (next_pk (relations st)) rel_rows).
  split; [reflexivity|]. split; [done|]. split; [done|]. split; [done|].
  split; [done|]. split.
  { unfold new_spans. rewrite length_assign_pks, <-Hsfst, length_fmap.
    symmetry. by eapply Forall2_length. }
  split; [done|]. split; [by intros []|].
  apply (Forall2_assign_pks (λ r p, links records project user st new_spans
                                      (mkSaved 0 r) p)).
  eapply Forall2_impl_elem; [exact Hresolved|].
  intros d p Hp (ty & f & t & Hty & Hf & Ht & ->).
  destruct (mapping_of_lookup _ _ _ _ _ Hty) as (Htbl & Hproj & Htext).
  destruct (elem_of_relation_pairs_inv _ _ _ Hp) as (record & Hzip & Hr).
  destruct (Hown record p.1 (elem_of_zip_l _ _ _ _ Hzip) Hr) as [Hfrom Hto].
  destruct (Hendpoint record p.2 _ f Hzip Hfrom Hf) as (sA & HsA & HidA & HendA).
  destruct (Hendpoint record p.2 _ t Hzip Hto Ht) as (sB & HsB & HidB & HendB).
  unfold links. cbn [row rel_example rel_user rel_type rel_from_id rel_to_id].
  repeat (split; [done|]). exists sA, sB. done.
Qed.

(** C1: a batch in which two records number their spans alike.  Both records
    number their spans 1 and 2, with uuids a1, a2 and b1, b2, and each has a
    relation from 1 to 2.  [RelationExamples.create_label] returns normally
    and stores the four spans, but the dictionary from span keys to durable
    spans is keyed by the key alone and keeps the last span of the batch
    under a key: the relation of the first record, stored on the first
    example, has as end points the durable spans with uuids b1 and b2, which
    are on the second example, and not those with uuids a1 and a2.  The
    whole commit [RelationExamples.create] on the empty store stores the
    same relations. *)
Theorem relation_on_reused_keys_links_other_record :
  let run := RelationExamples.create_label [Corpus.record_a; Corpus.record_b] 7 9
               [Corpus.example_a; Corpus.example_b] Corpus.store in
  let commit := RelationExamples.create [Corpus.record_a; Corpus.record_b] 7 9
                  empty_store in
  run.1 = Ok ()
  ∧ (sp_uuid ∘ row) <$> spans run.2 = ["a1"; "a2"; "b1"; "b2"]
  ∧ relation_summary <$> relations run.2 =
      [("Bob in Rome", "b1", "b2", "Anna in Paris", "Anna in Paris");
       ("Anna in Paris", "b1", "b2", "Anna in Paris", "Anna in Paris")]
  ∧ commit.1 = Ok ()
  ∧ relation_summary <$> relations commit.2 = relation_summary <$> relations run.2.
Proof. by vm_compute. Qed.


(** *** The whole commit of the relation variant *)

Lemma elem_of_filter_None {A} (x : A) (l : list (option A)) :
  x ∈ filter_None l ↔ Some x ∈ l.
Proof.
  induction l as [|[y|] l IH]; cbn [filter_None].
  - split; by intros ?%elem_of_nil.
  - rewrite !elem_of_cons, IH. split; intros [?|?]; simplify_eq; auto.
  - rewrite elem_of_cons, IH. split; [by right|by intros [?|?]].
Qed.

Lemma implied_types_elem (records : list Record.t) (project : Project)
    (record : Record.t) (l : Label) (ty : LabelType) :
  record ∈ records → l ∈ Record._label record →
  LabelOps.create_type l project = Some ty →
  ty ∈ implied_types records project.
Proof.
  intros Hrecord Hl Hty. unfold implied_types. apply elem_of_concat.
  exists (Record.create_label_type record project). split.
  - apply list_elem_of_fmap. eauto.
  - unfold Record.create_label_type. apply elem_of_filter_None, list_elem_of_fmap. eauto.
Qed.

(** After phase 2 the mapping of a class has an entry for every label type
    of that class that the batch implies. *)
Lemma mapping_of_implied (records : list Record.t) (project : Project) (st st2 : Store)
    (ty : LabelType) :
  LabeledExamples.create_label_type records project st = (Ok (), st2) →
  ty ∈ implied_types records project → lt_project ty = project →
  is_Some (mapping_of st2 project (lt_class ty) !! lt_text ty).
Proof.
  rewrite create_label_type_spec. intros [= <-] Hty Hproject.
  apply not_eq_None_Some. unfold mapping_of. rewrite dict_of_lookup_None.
  intros Hnotin. apply Hnotin. rewrite label_types_with.
  assert (unique_key ty ∈ keys (bulk_insert_ignore_conflicts (label_types st (lt_class ty))
            (filter (λ x, lt_class x = lt_class ty) (implied_types records project))))
    as Hkey.
  { apply ignore_conflicts_covers. by apply list_elem_of_filter. }
  apply list_elem_of_fmap in Hkey as (r & Hr & Hin).
  unfold unique_key in Hr. simpl in Hr. injection Hr as Hp Ht.
  rewrite <-list_fmap_compose. apply list_elem_of_fmap. exists r. split; [done|].
  apply list_elem_of_filter. split; [congruence|done].
Qed.

Lemma links_store_ext (records : list Record.t) (project : Project) (user : User)
    (st1 st2 : Store) (new_spans : list (Saved SpanModel)) (d : Saved RelationModel)
    (p : RelationL * Saved Example) :
  (∀ c, label_types st2 c = label_types st1 c) →
  links records project user st1 new_spans d p →
  links records project user st2 new_spans d p.
Proof.
  unfold links, endpoint, mapping_of.
  change (relation_types st1) with (label_types st1 RelationType).
  change (relation_types st2) with (label_types st2 RelationType).
  intros Heq. by rewrite !Heq.
Qed.

(** X21: the whole commit, [RelationExamples.create], on a batch whose span
    and relation labels have non-empty names, whose relation labels
    reference keys of span labels of their own record, and in which no two
    span labels share a key or a uuid: phases 1 and 2 establish what phase 3
    needs, the commit succeeds, one example per record and one span per span
    label are stored, and every relation label is stored as a relation on
    the example of its record, typed by its type name, whose two end points
    are the durable spans stored on that same example for the span labels
    carrying its [from] and [to] keys, with their uuids and offsets. *)
Theorem relation_create_links_own_spans (records : list Record.t) (project : Project)
    (user : User) (st : Store) :
  (∀ s, s ∈ batch_spans records → truthy (span_label s)) →
  (∀ r, r ∈ batch_relations records → truthy (type r)) →
  (∀ record r, record ∈ records → r ∈ relations_of record →
        from_id r ∈ id <$> spans_of record ∧ to_id r ∈ id <$> spans_of record) →
  NoDup (id <$> batch_spans records) →
  NoDup (uuid <$> batch_spans records) →
  ∃ st' new_examples new_spans new_relations,
    RelationExamples.create records project user st = (Ok (), st')
    ∧ examples st' = examples st ++ new_examples
    ∧ length new_examples = length records
    ∧ spans st' = spans st ++ new_spans
    ∧ length new_spans = length (batch_spans records)
    ∧ relations st' = relations st ++ new_relations
    ∧ (relation_pairs records new_examples).*1 = batch_relations records
    ∧ Forall2 (links records project user st' new_spans)
        new_relations (relation_pairs records new_examples).
Proof.
  intros Hspans Hrels Hown Hids Huuids.
  destruct (create_data_keeps_record_order_aux records project st)
    as (new_examples & st1 & Hdata & Hlen & _ & Hex & Hframe).
  destruct Hframe as (_ & _ & _ & _ & Hsp & _ & Hrel).
  pose proof (create_label_type_spec records project st1) as Htypes.
  set (st2 := with_label_types st1 _) in Htypes.
  destruct (relation_create_label_links records project user new_examples st2)
    as (st' & new_spans & new_relations & Hrun & Hsp' & Hrel' & _ & Hfst & Hcount
        & Hex' & Hlt & Hres); [lia| | |done..|].
  - intros s Hs.
    apply elem_of_concat in Hs as (l & Hl & Hs).
    apply list_elem_of_fmap in Hl as (record & -> & Hrecord).
    apply list_elem_of_omap in Hs as (lab & Hlab & Hmatch).
    destruct lab; simplify_eq/=.
    apply (mapping_of_implied records project st1 st2
             (mkLabelType SpanType project (span_label s))); [done| |done].
    eapply implied_types_elem; [done..|].
    unfold LabelOps.create_type. simpl.
    specialize (Hspans s). destruct (truthy (span_label s)); [done|].
    exfalso. apply Hspans. apply elem_of_concat.
    exists (spans_of record). split; [apply list_elem_of_fmap; eauto|].
    apply list_elem_of_omap. by exists (LSpan s).
  - intros r Hr. pose proof (Hrels r Hr) as Htruthy.
    apply elem_of_concat in Hr as (l & Hl & Hr).
    apply list_elem_of_fmap in Hl as (record & -> & Hrecord).
    apply list_elem_of_omap in Hr as (lab & Hlab & Hmatch).
    destruct lab; simplify_eq/=.
    apply (mapping_of_implied records project st1 st2
             (mkLabelType RelationType project (type r))); [done| |done].
    eapply implied_types_elem; [done..|].
    unfold LabelOps.create_type. simpl.
    by destruct (truthy (type r)).
  - exists st', new_examples, new_spans, new_relations.
    split.
    { unfold RelationExamples.create, LabeledExamples.create, mbind, M_bind.
      by rewrite Hdata, Htypes, Hrun. }
    rewrite Hex', Hsp', Hrel'. unfold st2.
    cbn [with_label_types examples spans relations].
    rewrite Hex, Hsp, Hrel.
    repeat (split; [done|]).
    eapply Forall2_impl; [exact Hres|].
    intros d p. apply links_store_ext. apply Hlt.
Qed.

(** ** The text variant against the base commit *)

Lemma implied_types_project (records : list Record.t) (project : Project)
    (ty : LabelType) :
  ty ∈ implied_types records project → lt_project ty = project.
Proof.
  intros (l0 & Hl0 & Hty)%elem_of_concat.
  apply list_elem_of_fmap in Hl0 as (record & -> & _).
  apply elem_of_filter_None in Hty.
  apply list_elem_of_fmap in Hty as (l & Hl & _).
  unfold LabelOps.create_type in Hl.
  destruct (_ && _); [|done]. destruct l; by simplify_eq.
Qed.

(** With phase 2 in place, a commit adds a label type for every implied
    name that the project does not have yet. *)
Lemma base_create_derives_label_type (records : list Record.t) (project : Project)
    (user : User) (st : Store) (ty : LabelType) :
  ty ∈ implied_types records project →
  mapping_of st project (lt_class ty) !! lt_text ty = None →
  label_types (LabeledExamples.create records (TextExamples.create_label records)
                 project user st).2 (lt_class ty) ≠ label_types st (lt_class ty).
Proof.
  intros Hty Hnone Heq.
  pose proof (implied_types_project _ _ _ Hty) as Hproject.
  destruct (create_data_keeps_record_order_aux records project st)
    as (new_examples & st1 & Hdata & _ & _ & _ & Hframe).
  pose proof (create_label_type_spec records project st1) as Htypes.
  set (st2 := with_label_types st1 _) in Htypes.
  destruct (mapping_of_implied records project st1 st2 ty Htypes Hty Hproject) as [d Hd].
  unfold LabeledExamples.create, mbind, M_bind in Heq.
  rewrite Hdata, Htypes in Heq. cbn beta iota in Heq.
  rewrite text_create_label_keeps_label_types in Heq.
  unfold mapping_of in Hd, Hnone. rewrite Heq, Hnone in Hd. done.
Qed.

(** C7: [TextExamples.create] derives no label type.  Whatever the batch, also
    one with typed labels and whether or not the commit raises, the three
    label-type tables are after it what they were before; the commit that
    keeps phase 2 in front of the same [create_label] does add a label type
    for every name the batch implies and the project does not have yet; and
    a batch of text labels is committed: the call returns normally, no row
    is added to the label-type, category, span and relation tables, one
    example per record and one [TextLabel] row per text label are appended,
    each row on the example of its record. *)
Theorem text_create_derives_no_label_type (records : list Record.t) (project : Project)
    (user : User) (st : Store) :
  (∀ c, label_types (TextExamples.create records project user st).2 c = label_types st c)
  ∧ (∀ ty, ty ∈ implied_types records project →
        mapping_of st project (lt_class ty) !! lt_text ty = None →
        label_types (LabeledExamples.create records (TextExamples.create_label records)
                       project user st).2 (lt_class ty) ≠ label_types st (lt_class ty))
  ∧ (Forall (λ record, Forall (λ l, isinstance l TextLabelClass) (Record._label record))
       records →
     ∃ st' new_examples new_texts,
       TextExamples.create records project user st = (Ok (), st')
       ∧ category_types st' = category_types st
       ∧ span_types st' = span_types st
       ∧ relation_types st' = relation_types st
       ∧ categories st' = categories st
       ∧ spans st' = spans st
       ∧ relations st' = relations st
       ∧ examples st' = examples st ++ new_examples
       ∧ length new_examples = length records
       ∧ text_labels st' = text_labels st ++ new_texts
       ∧ row <$> new_texts = concat (text_rows user <$> zip records new_examples)
       ∧ length new_texts =
           sum_list ((λ record, length (Record._label record)) <$> records)).
Proof.
  split; [intros c; apply text_create_label_types_frame|].
  split; [intros ty; apply base_create_derives_label_type|].
  intros Htext.
  destruct (create_data_keeps_record_order_aux records project st)
    as (new_examples & st1 & Hdata & Hlen & Hrows & Hex & Hframe).
  unfold TextExamples.create, TextExamples.create_label, lift, mbind, M_bind.
  rewrite Hdata. cbn beta iota.
  rewrite (extract_labels_text_records _ _ _ _ _ Htext).
  unfold Objects.TextLabel_bulk_create. rewrite comprehension_as_text_label.
  destruct Hframe as (Hct & Hst & Hrt & Hc & Hs & Htl & Hr).
  eexists _, new_examples, _. split; [reflexivity|]. cbn [category_types span_types
    relation_types categories spans relations examples text_labels bulk_insert snd].
  repeat (split; [done|]).
  split; [by rewrite Htl|].
  rewrite row_assign_pks. split; [done|].
  rewrite length_assign_pks, length_concat, <-list_fmap_compose.
  f_equal. clear -Hlen. revert new_examples Hlen.
  induction records as [|record records IH]; intros [|example examples] Hlen;
    simplify_eq/=; [done|].
  unfold text_rows at 1. simpl. rewrite length_fmap. f_equal. by apply IH.
Qed.

(** ** The scenarios, checked *)

Ltac elem_of_cases H :=
  repeat match type of H with
  | _ ∈ [] => by apply elem_of_nil in H
  | _ ∈ _ :: _ => apply elem_of_cons in H as [->|H]
  end.

Lemma dangling_relation_raises_witness :
  (Scenario.dangling_record, Scenario.example) ∈
    zip [Scenario.dangling_record] [Scenario.example]
  ∧ LRelation Scenario.dangling ∈ Record._label Scenario.dangling_record
  ∧ (from_id Scenario.dangling ∉ id <$> batch_spans [Scenario.dangling_record]
     ∨ to_id Scenario.dangling ∉ id <$> batch_spans [Scenario.dangling_record])
  ∧ ∃ k st',
      RelationExamples.create_label [Scenario.dangling_record] 7 9 [Scenario.example]
        Scenario.store = (Raise (KeyError k), st')
      ∧ relations st' = relations Scenario.store.
Proof.
  assert ((Scenario.dangling_record, Scenario.example) ∈
            zip [Scenario.dangling_record] [Scenario.example]) as H1 by (by left).
  assert (LRelation Scenario.dangling ∈ Record._label Scenario.dangling_record) as H2
    by (right; by left).
  assert (from_id Scenario.dangling ∉ id <$> batch_spans [Scenario.dangling_record]
          ∨ to_id Scenario.dangling ∉ id <$> batch_spans [Scenario.dangling_record]) as H3.
  { right. change (batch_spans [Scenario.dangling_record]) with [Scenario.span_u1].
    intros Hin. simpl in Hin.
    apply elem_of_cons in Hin as [Heq|Hin]; [discriminate|by apply elem_of_nil in Hin]. }
  split; [exact H1|]. split; [exact H2|]. split; [exact H3|].
  exact (dangling_relation_raises [Scenario.dangling_record] 7 9 [Scenario.example]
           Scenario.store Scenario.dangling_record Scenario.example Scenario.dangling
           H1 H2 H3).
Defined.

Lemma create_label_type_idempotent_witness :
  (∀ c, NoDup (keys (label_types empty_store c)))
  ∧ ∃ st',
      LabeledExamples.create_label_type [Scenario.tagged_record; Scenario.tagged_record] 7
        empty_store = (Ok (), st')
      ∧ (∀ ty, ty ∈ implied_types [Scenario.tagged_record; Scenario.tagged_record] 7 →
           length (filter (λ r, unique_key (row r) = unique_key ty)
                     (label_types st' (lt_class ty))) = 1%nat)
      ∧ LabeledExamples.create_label_type [Scenario.tagged_record; Scenario.tagged_record] 7
          st' = (Ok (), st')
      ∧ (∀ c, NoDup (keys (label_types st' c)))
      ∧ (∀ c, label_types empty_store c `prefix_of` label_types st' c).
Proof.
  assert (∀ c, NoDup (keys (label_types empty_store c))) as H1.
  { intros c. destruct c; apply NoDup_nil_2. }
  split; [exact H1|].
  exact (create_label_type_idempotent [Scenario.tagged_record; Scenario.tagged_record] 7
           empty_store H1).
Defined.

Lemma span_uuid_preserved_witness :
  (∀ d p, d ∈ spans Scenario.store →
          p ∈ span_pairs [Scenario.record] [Scenario.example] →
          sp_uuid (row d) ≠ uuid p.1)
  ∧ ∃ new_spans,
      let st' := (RelationExamples.create_label [Scenario.record] 7 9 [Scenario.example]
                    Scenario.store).2 in
      let derived := λ (d : Saved SpanModel) (p : SpanL * Saved Example),
        sp_uuid (row d) = uuid p.1 ∧ sp_example (row d) = p.2
        ∧ sp_start_offset (row d) = start_offset p.1
        ∧ sp_end_offset (row d) = end_offset p.1 in
      spans st' = spans Scenario.store ++ new_spans
      ∧ (new_spans = [] ∨
         Forall2 derived new_spans (span_pairs [Scenario.record] [Scenario.example]))
      ∧ ((∀ p, p ∈ span_pairs [Scenario.record] [Scenario.example] →
               is_Some (mapping_of Scenario.store 7 SpanType !! span_label p.1)) →
         Forall2 derived new_spans (span_pairs [Scenario.record] [Scenario.example]))
      ∧ filter (λ d, sp_uuid (row d) ∈ (sp_uuid ∘ row) <$> new_spans) (spans st') =
          new_spans.
Proof.
  assert (∀ d p, d ∈ spans Scenario.store →
            p ∈ span_pairs [Scenario.record] [Scenario.example] →
            sp_uuid (row d) ≠ uuid p.1) as H1.
  { intros d p Hd _. simpl in Hd. by apply elem_of_nil in Hd. }
  split; [exact H1|].
  exact (span_uuid_preserved [Scenario.record] 7 9 [Scenario.example] Scenario.store H1).
Defined.

Lemma text_create_derives_no_label_type_witness :
  (Forall (λ record, Forall (λ l, isinstance l TextLabelClass) (Record._label record))
     [Scenario.text_record; Scenario.text_record]
   ∧ ∃ st' new_examples new_texts,
       TextExamples.create [Scenario.text_record; Scenario.text_record] 7 9
         Corpus.text_store = (Ok (), st')
       ∧ category_types st' = category_types Corpus.text_store
       ∧ span_types st' = span_types Corpus.text_store
       ∧ relation_types st' = relation_types Corpus.text_store
       ∧ categories st' = categories Corpus.text_store
       ∧ spans st' = spans Corpus.text_store
       ∧ relations st' = relations Corpus.text_store
       ∧ examples st' = examples Corpus.text_store ++ new_examples
       ∧ length new_examples = length [Scenario.text_record; Scenario.text_record]
       ∧ text_labels st' = text_labels Corpus.text_store ++ new_texts
       ∧ row <$> new_texts =
           concat (text_rows 9 <$> zip [Scenario.text_record; Scenario.text_record]
                                       new_examples)
       ∧ length new_texts =
           sum_list ((λ record, length (Record._label record)) <$>
                       [Scenario.text_record; Scenario.text_record]))
  ∧ (mkLabelType CategoryType 7 "POS" ∈ implied_types [Scenario.tagged_record] 7
     ∧ mapping_of Corpus.text_store 7 CategoryType !! "POS" = None
     ∧ (∀ c, label_types (TextExamples.create [Scenario.tagged_record] 7 9
                            Corpus.text_store).2 c = label_types Corpus.text_store c)
     ∧ label_types (LabeledExamples.create [Scenario.tagged_record]
                      (TextExamples.create_label [Scenario.tagged_record]) 7 9
                      Corpus.text_store).2 CategoryType
       ≠ label_types Corpus.text_store CategoryType).
Proof.
  assert (Forall (λ record, Forall (λ l, isinstance l TextLabelClass)
                              (Record._label record))
            [Scenario.text_record; Scenario.text_record]) as H1.
  { repeat constructor. }
  assert (mkLabelType CategoryType 7 "POS" ∈ implied_types [Scenario.tagged_record] 7)
    as H2.
  { right. by left. }
  assert (mapping_of Corpus.text_store 7 CategoryType !! "POS" = None) as H3.
  { reflexivity. }
  split.
  - split; [exact H1|].
    exact (proj2 (proj2 (text_create_derives_no_label_type
                           [Scenario.text_record; Scenario.text_record] 7 9
                           Corpus.text_store)) H1).
  - split; [exact H2|]. split; [exact H3|].
    pose proof (text_create_derives_no_label_type [Scenario.tagged_record] 7 9
                  Corpus.text_store) as [Hframe [Hbase _]].
    split; [exact Hframe|].
    exact (Hbase (mkLabelType CategoryType 7 "POS") H2 H3).
Defined.

(** The end-to-end scenarios on an empty store. *)

Example scenario_span_and_category :
  let run := SpanAndCategoryExamples.create
               [Scenario.tagged_record; Scenario.tagged_record] 7 9 empty_store in
  run.1 = Ok ()
  ∧ length (examples run.2) = 2%nat
  ∧ row <$> span_types run.2 = [mkLabelType SpanType 7 "PER"]
  ∧ row <$> category_types run.2 = [mkLabelType CategoryType 7 "POS"]
  ∧ (sp_example ∘ row) <$> spans run.2 = examples run.2
  ∧ (cat_example ∘ row) <$> categories run.2 = examples run.2.
Proof. by vm_compute. Qed.

Example scenario_relation :
  let run := RelationExamples.create [Scenario.record] 7 9 empty_store in
  run.1 = Ok ()
  ∧ (sp_uuid ∘ row) <$> spans run.2 = ["u1"; "u2"]
  ∧ (λ d, (sp_uuid (row (rel_from_id (row d))), sp_uuid (row (rel_to_id (row d))),
           lt_text (row (rel_type (row d))))) <$> relations run.2 =
      [("u1", "u2", "lives_in")]
  ∧ (λ d, [rel_from_id (row d); rel_to_id (row d)]) <$> relations run.2 = [spans run.2].
Proof. by vm_compute. Qed.

Example scenario_text :
  let run := TextExamples.create [Scenario.text_record] 7 9 empty_store in
  run.1 = Ok ()
  ∧ category_types run.2 ++ span_types run.2 ++ relation_types run.2 = []
  ∧ (tl_text ∘ row) <$> text_labels run.2 = ["bonjour"].
Proof. by vm_compute. Qed.

Example scenario_dangling :
  let run := RelationExamples.create [Scenario.dangling_record] 7 9 empty_store in
  run.1 = Raise (KeyError (KInt 5)) ∧ relations run.2 = [].
Proof. by vm_compute. Qed.

(** * Further properties *)

(** ** Grouping by class *)

Lemma group_lookup_elem {C V} `{EqDecision C} (c : C) (xs : list V)
    (groups : list (C * list V)) :
  NoDup groups.*1 → (c, xs) ∈ groups → group_lookup c groups = xs.
Proof.
  induction groups as [|[d ys] groups IH]; [by intros _ ?%elem_of_nil|].
  rewrite fmap_cons. intros [Hnotin Hnd]%NoDup_cons [Heq|Hin]%elem_of_cons; cbn [group_lookup].
  - injection Heq as -> ->. by rewrite decide_True.
  - rewrite decide_False; [by apply IH|].
    intros ->. apply Hnotin. apply list_elem_of_fmap. by exists (d, xs).
Qed.

Lemma group_lookup_nonempty {C V} `{EqDecision C} (c : C) (groups : list (C * list V)) :
  group_lookup c groups ≠ [] → (c, group_lookup c groups) ∈ groups.
Proof.
  induction groups as [|[d ys] groups IH]; [done|]. cbn [group_lookup].
  case_decide as Hc; [subst; by left|]. intros Hne. right. by apply IH.
Qed.

Lemma group_append_sizes {C V} `{EqDecision C} (c : C) (x : V)
    (groups : list (C * list V)) :
  sum_list ((λ g, length g.2) <$> group_append c x groups) =
    S (sum_list ((λ g, length g.2) <$> groups)).
Proof.
  induction groups as [|[d ys] groups IH]; [done|]. cbn [group_append].
  case_decide; rewrite !fmap_cons; cbn [sum_list sum_list_with snd].
  - rewrite length_app. simpl. lia.
  - rewrite IH. lia.
Qed.

(** X1: [group_by_class] partitions its input: the classes of the groups are
    pairwise distinct, every group is not empty and holds exactly the
    instances of its class in their order, every instance is in the group
    of its class, and the groups together have as many members as there are
    instances. *)
Theorem group_by_class_partitions {C V} `{EqDecision C} (class_of : V → C)
    (instances : list V) :
  NoDup (group_by_class class_of instances).*1
  ∧ (∀ c xs, (c, xs) ∈ group_by_class class_of instances →
       xs ≠ [] ∧ xs = filter (λ x, class_of x = c) instances)
  ∧ (∀ x, x ∈ instances →
       ∃ xs, (class_of x, xs) ∈ group_by_class class_of instances ∧ x ∈ xs)
  ∧ sum_list ((λ g, length g.2) <$> group_by_class class_of instances) = length instances.
Proof.
  destruct (group_by_class_spec class_of instances) as (Hnd & Hne & Hlook).
  split; [done|]. split; [|split].
  - intros c xs Hin. split.
    + rewrite Forall_forall in Hne. apply (Hne (c, xs) Hin).
    + rewrite <-Hlook. symmetry. by apply group_lookup_elem.
  - intros x Hx.
    assert (x ∈ group_lookup (class_of x) (group_by_class class_of instances)) as Hin.
    { rewrite Hlook. by apply list_elem_of_filter. }
    eexists. split; [|exact Hin]. apply group_lookup_nonempty.
    intros Hnil. rewrite Hnil in Hin. by apply elem_of_nil in Hin.
  - clear. induction instances as [|x instances IH] using rev_ind; [done|].
    rewrite group_by_class_snoc, group_append_sizes, IH, length_app. simpl. lia.
Qed.

(** ** Records *)

Lemma filter_None_submseteq {A} (l1 l2 : list (option A)) :
  l1 ⊆+ l2 → filter_None l1 ⊆+ filter_None l2.
Proof.
  induction 1 as [|x l1 l2 _ IH|x y l|x l1 l2 _ IH|l1 l2 l3 _ IH1 _ IH2].
  - done.
  - destruct x; cbn [filter_None]; [by constructor|done].
  - destruct x, y; cbn [filter_None]; try done. apply submseteq_swap.
  - destruct x; cbn [filter_None]; [by constructor|done].
  - by etrans.
Qed.

(** X2: for a record whose labels all have a non-empty name and a cleaner
    that returns no more labels than it gets, [Record.clean] keeps the data,
    the meta and the line number, replaces the labels by the cleaner's
    output, and returns a warning exactly when labels were removed; the
    warning carries the file name of the data, the record's line number and
    the cleaner's message. *)
Theorem clean_warns_iff_labels_removed (self : Record.t) (cleaner : Cleaner) :
  Forall (λ l, named l) (Record._label self) →
  (length (cleaner_clean cleaner (Record._label self)) ≤ length (Record._label self))%nat →
  let cleaned := (Record.clean self cleaner).1 in
  let warning := (Record.clean self cleaner).2 in
  Record._data cleaned = Record._data self
  ∧ Record._meta cleaned = Record._meta self
  ∧ Record._line_num cleaned = Record._line_num self
  ∧ Record._label cleaned = cleaner_clean cleaner (Record._label self)
  ∧ (∀ project, Record.create_data cleaned project = Record.create_data self project)
  ∧ ((length (Record._label cleaned) < length (Record._label self))%nat →
       warning = Some (mkFileParseException (filename (Record._data self))
                         (Record._line_num self) (cleaner_message cleaner)))
  ∧ (length (Record._label cleaned) = length (Record._label self) → warning = None).
Proof.
  intros Hnamed Hle. cbn zeta.
  unfold Record.clean, Record.label. rewrite length_fmap.
  change (λ l, Is_true (LabelOps.has_name l && truthy (LabelOps.name l)))
    with (λ l, Is_true (named l)).
  rewrite (filter_all _ _ Hnamed).
  destruct (Nat.eqb_spec (length (cleaner_clean cleaner (Record._label self)))
              (length (Record._label self))) as [Heq|Hne]; simpl;
    repeat (split; [done|]); try split; intros; first [done|lia].
Qed.

(** X3: when the cleaner's output is a sub-multiset of the labels it gets
    (it removes and reorders, but adds nothing), the label types implied by
    the cleaned record are a sub-multiset of those implied before. *)
Theorem clean_adds_no_label_type (self : Record.t) (cleaner : Cleaner)
    (project : Project) :
  cleaner_clean cleaner (Record._label self) ⊆+ Record._label self →
  Record.create_label_type (Record.clean self cleaner).1 project ⊆+
    Record.create_label_type self project.
Proof.
  intros Hsub.
  assert (Record._label (Record.clean self cleaner).1 =
          cleaner_clean cleaner (Record._label self)) as Hlabel.
  { unfold Record.clean. by destruct (negb _). }
  unfold Record.create_label_type. rewrite Hlabel.
  apply filter_None_submseteq. by apply fmap_submseteq.
Qed.

(** X4: [select_label] returns, in order, exactly the labels of the given
    class, and the four classes split the labels of a record. *)
Theorem select_label_partitions (self : Record.t) :
  (∀ c, Forall (λ l, isinstance l c) (Record.select_label self c)
        ∧ Record.select_label self c `sublist_of` Record._label self
        ∧ (∀ l, l ∈ Record._label self → isinstance l c → l ∈ Record.select_label self c))
  ∧ (length (Record.select_label self CategoryLabel)
     + length (Record.select_label self SpanLabel)
     + length (Record.select_label self TextLabelClass)
     + length (Record.select_label self RelationLabel)
     = length (Record._label self))%nat.
Proof.
  split.
  - intros c. unfold Record.select_label. split; [|split].
    + apply Forall_forall. by intros l [? _]%list_elem_of_filter.
    + apply sublist_filter.
    + intros l Hl Hc. by apply list_elem_of_filter.
  - unfold Record.select_label.
    induction (Record._label self) as [|l ls IH]; [done|].
    destruct l;
      repeat (first [rewrite filter_cons_True by done
                    |rewrite filter_cons_False by (by intros ?)]);
      simpl; lia.
Qed.

(** The [label] property lists one entry per label that implies a label
    type: it is as long as the result of [create_label_type]. *)
Theorem label_property_counts_label_types (self : Record.t) (project : Project) :
  length (Record.label self) = length (Record.create_label_type self project).
Proof.
  unfold Record.label, Record.create_label_type. rewrite length_fmap.
  induction (Record._label self) as [|l ls IH]; [done|].
  rewrite fmap_cons. destruct (named l) eqn:Hn.
  - rewrite filter_cons_True by (apply Is_true_true; exact Hn).
    destruct (create_type_named l project Hn) as (ty & -> & _).
    cbn [filter_None]. simpl. by rewrite IH.
  - rewrite filter_cons_False by (apply Is_true_false; exact Hn).
    rewrite (create_type_unnamed l project Hn). by cbn [filter_None].
Qed.

(** ** Extraction *)

Lemma comprehension_first_error {A B} (f : A → result B) (l : list A) (i : nat)
    (x : A) (e : exn) :
  l !! i = Some x →
  (∀ j y, (j < i)%nat → l !! j = Some y → is_Ok (f y)) →
  f x = Raise e →
  comprehension f l = Raise e.
Proof.
  revert i. induction l as [|a l IH]; intros i Hi Hbefore Hx; [done|].
  destruct i as [|i]; cbn [comprehension].
  - injection Hi as ->. by rewrite Hx.
  - destruct (Hbefore 0%nat a) as [y ->]; [lia|done|]. simpl.
    rewrite (IH i); [done|done| |done].
    intros j y' Hj Hy'. apply (Hbefore (S j) y'); [lia|done].
Qed.

(** X5: [extract_labels] works record by record: on a batch made of two
    batches, each with as many examples as records, it returns the labels of
    the first followed by those of the second (or the first exception); with
    no record, or no example, it returns no label. *)
Theorem extract_labels_of_two_batches (records1 records2 : list Record.t) (user : User)
    (examples1 examples2 : list (Saved Example))
    (mapping : gmap string (Saved LabelType)) (label_class : option LabelClass)
    (kwargs : Kwargs) :
  length records1 = length examples1 →
  LabeledExamples.extract_labels (records1 ++ records2) user (examples1 ++ examples2)
    mapping label_class kwargs =
    (labels1 ← LabeledExamples.extract_labels records1 user examples1
                 mapping label_class kwargs;
     labels2 ← LabeledExamples.extract_labels records2 user examples2
                 mapping label_class kwargs;
     Ok (labels1 ++ labels2))
  ∧ LabeledExamples.extract_labels [] user examples1 mapping label_class kwargs = Ok []
  ∧ LabeledExamples.extract_labels records1 user [] mapping label_class kwargs = Ok [].
Proof.
  intros Hlen. split; [|split].
  - unfold LabeledExamples.extract_labels.
    rewrite zip_with_app by done. rewrite comprehension_app.
    destruct (comprehension _ (zip records1 examples1)) as [ms1|e]; [|done].
    destruct (comprehension _ (zip records2 examples2)) as [ms2|e]; [|done].
    cbn. by rewrite concat_app.
  - done.
  - unfold LabeledExamples.extract_labels. by rewrite zip_with_nil_r.
Qed.

(** X6: the exception of the first record whose labels cannot be created is
    the exception of [extract_labels]: no later record is looked at and no
    label of an earlier one is returned. *)
Theorem extract_labels_first_error (records : list Record.t) (user : User)
    (examples : list (Saved Example)) (mapping : gmap string (Saved LabelType))
    (label_class : option LabelClass) (kwargs : Kwargs)
    (i : nat) (record : Record.t) (example : Saved Example) (e : exn) :
  records !! i = Some record → examples !! i = Some example →
  (∀ j r x, (j < i)%nat → records !! j = Some r → examples !! j = Some x →
            is_Ok (Record.create_label r user x mapping label_class kwargs)) →
  Record.create_label record user example mapping label_class kwargs = Raise e →
  LabeledExamples.extract_labels records user examples mapping label_class kwargs =
    Raise e.
Proof.
  intros Hr Hx Hbefore Hraise. unfold LabeledExamples.extract_labels.
  rewrite (comprehension_first_error _ _ i (record, example) e); [done| | |done].
  - by rewrite lookup_zip_with, Hr, Hx.
  - intros j [r x] Hj Hjr. rewrite lookup_zip_with in Hjr.
    destruct (records !! j) as [r'|] eqn:Hr'; [|done].
    destruct (examples !! j) as [x'|] eqn:Hx'; [|done].
    injection Hjr as -> ->. by apply (Hbefore j).
Qed.

(** ** Label types and mappings *)

Lemma ignore_conflicts_added (objs : list LabelType) (tbl : list (Saved LabelType)) :
  ∃ added,
    bulk_insert_ignore_conflicts tbl objs = tbl ++ added
    ∧ Forall (λ r, row r ∈ objs ∧ unique_key (row r) ∉ keys tbl) added.
Proof.
  revert tbl. induction objs as [|x objs IH]; intros tbl; cbn [bulk_insert_ignore_conflicts].
  - exists []. split; [by rewrite app_nil_r|constructor].
  - case_decide as Hin.
    + destruct (IH tbl) as (added & -> & Hadded). exists added. split; [done|].
      eapply Forall_impl; [exact Hadded|]. intros r [Hr Hk]. split; [by right|done].
    + destruct (IH (tbl ++ [mkSaved (next_pk tbl) x])) as (added & -> & Hadded).
      exists (mkSaved (next_pk tbl) x :: added). split; [by rewrite <-app_assoc|].
      constructor; [split; [by left|done]|].
      eapply Forall_impl; [exact Hadded|]. intros r [Hr Hk]. split; [by right|].
      intros Hk'. apply Hk. rewrite keys_app. apply elem_of_app. by left.
Qed.

Lemma implied_types_inv (records : list Record.t) (project : Project) (ty : LabelType) :
  ty ∈ implied_types records project →
  ∃ record l, record ∈ records ∧ l ∈ Record._label record
    ∧ LabelOps.create_type l project = Some ty.
Proof.
  unfold implied_types. intros (tys & Htys & Hty)%elem_of_concat.
  apply list_elem_of_fmap in Htys as (record & -> & Hrecord).
  unfold Record.create_label_type in Hty.
  apply elem_of_filter_None, list_elem_of_fmap in Hty as (l & Hl & Hin).
  exists record, l. done.
Qed.

Lemma create_type_Some_inv (l : Label) (project : Project) (ty : LabelType) :
  LabelOps.create_type l project = Some ty →
  named l = true ∧ lt_project ty = project ∧ lt_text ty = LabelOps.name l.
Proof.
  intros Hty. destruct (named l) eqn:Hn.
  - destruct (create_type_named l project Hn) as (ty' & Hty' & Hp & Ht).
    by simplify_eq.
  - by rewrite (create_type_unnamed l project Hn) in Hty.
Qed.

(** X7: [create_mapping] reads the store without changing it; every entry
    of the mapping is a row of the requested class and project filed under
    its own text, a name is absent exactly when no row of that project has
    it as text, rows of other projects never show, and when the (project,
    text) keys of the table are unique every row of the project is found
    under its text. *)
Theorem create_mapping_entries (project : Project) (label_type : LabelTypeClass)
    (st : Store) :
  ∃ mapping,
    LabeledExamples.create_mapping project label_type st = (Ok mapping, st)
    ∧ (∀ name ty, mapping !! name = Some ty →
         ty ∈ label_types st label_type
         ∧ lt_project (row ty) = project ∧ lt_text (row ty) = name)
    ∧ (∀ name, mapping !! name = None ↔
         ∀ ty, ty ∈ label_types st label_type → lt_project (row ty) = project →
               lt_text (row ty) ≠ name)
    ∧ (NoDup (keys (label_types st label_type)) →
       ∀ ty, ty ∈ label_types st label_type → lt_project (row ty) = project →
             mapping !! lt_text (row ty) = Some ty).
Proof.
  exists (mapping_of st project label_type). split; [done|].
  split; [apply mapping_of_lookup|]. split.
  - intros name. unfold mapping_of. rewrite dict_of_lookup_None, <-list_fmap_compose.
    split.
    + intros Hnotin ty Hty Hproject Htext. apply Hnotin.
      apply list_elem_of_fmap. exists ty. split; [done|]. by apply list_elem_of_filter.
    + intros Hall (ty & Htext & [Hproject Hty]%list_elem_of_filter)%list_elem_of_fmap.
      by apply (Hall ty).
  - intros Hnd ty Hty Hproject.
    destruct (mapping_of st project label_type !! lt_text (row ty)) as [ty'|] eqn:Hlook.
    + apply mapping_of_lookup in Hlook as (Hty' & Hproject' & Htext').
      f_equal. apply (NoDup_fmap_elem_inj (unique_key ∘ row)
                        (label_types st label_type)); [done..|].
      unfold unique_key. simpl. congruence.
    + exfalso. revert Hlook. unfold mapping_of.
      rewrite dict_of_lookup_None, <-list_fmap_compose. intros Hnotin. apply Hnotin.
      apply list_elem_of_fmap. exists ty. split; [done|]. by apply list_elem_of_filter.
Qed.

(** X8: after [create_label_type] has run on a batch, the mapping built by
    [create_mapping] for the class of any label type the batch implies has
    an entry under that type's text, and the entry is a stored row of the
    project with that text: phase 2 provides what phase 3 looks up. *)
Theorem create_label_type_feeds_create_mapping (records : list Record.t)
    (project : Project) (st : Store) (record : Record.t) (l : Label) (ty : LabelType) :
  record ∈ records → l ∈ Record._label record →
  LabelOps.create_type l project = Some ty →
  ∃ st2 mapping stored,
    LabeledExamples.create_label_type records project st = (Ok (), st2)
    ∧ LabeledExamples.create_mapping project (lt_class ty) st2 = (Ok mapping, st2)
    ∧ mapping !! LabelOps.name l = Some stored
    ∧ stored ∈ label_types st2 (lt_class ty)
    ∧ lt_project (row stored) = project
    ∧ lt_text (row stored) = LabelOps.name l.
Proof.
  intros Hrecord Hl Hty.
  destruct (create_type_Some_inv l project ty Hty) as (_ & Hproject & Htext).
  pose proof (create_label_type_spec records project st) as Hrun.
  set (st2 := with_label_types st _) in Hrun.
  destruct (mapping_of_implied records project st st2 ty Hrun) as [stored Hstored].
  { by eapply implied_types_elem. }
  { done. }
  rewrite Htext in Hstored.
  destruct (mapping_of_lookup _ _ _ _ _ Hstored) as (Hin & Hp & Ht).
  exists st2, (mapping_of st2 project (lt_class ty)), stored. done.
Qed.

(** X9: [create_label_type] writes to the label-type tables only, and only
    by appending: in each class it adds rows for label types the batch
    implies for that class, of the given project, with a non-empty text and
    a (project, text) key the table did not hold; the example and label
    tables are left as they were. *)
Theorem create_label_type_adds_only_implied_types (records : list Record.t)
    (project : Project) (st : Store) :
  ∃ st',
    LabeledExamples.create_label_type records project st = (Ok (), st')
    ∧ examples st' = examples st
    ∧ categories st' = categories st
    ∧ spans st' = spans st
    ∧ text_labels st' = text_labels st
    ∧ relations st' = relations st
    ∧ ∀ c, ∃ added,
        label_types st' c = label_types st c ++ added
        ∧ Forall (λ r, row r ∈ implied_types records project
                       ∧ lt_class (row r) = c
                       ∧ lt_project (row r) = project
                       ∧ truthy (lt_text (row r))
                       ∧ unique_key (row r) ∉ keys (label_types st c)) added.
Proof.
  rewrite create_label_type_spec. eexists. split; [reflexivity|].
  repeat (split; [done|]).
  intros c. rewrite label_types_with.
  destruct (ignore_conflicts_added
              (filter (λ x, lt_class x = c) (implied_types records project))
              (label_types st c)) as (added & -> & Hadded).
  exists added. split; [done|].
  eapply Forall_impl; [exact Hadded|].
  intros r [[Hclass Himplied]%list_elem_of_filter Hkey].
  destruct (implied_types_inv _ _ _ Himplied) as (record & l & _ & _ & Hty).
  destruct (create_type_Some_inv _ _ _ Hty) as (Hnamed & Hproject & Htext).
  repeat (split; [done|]). split; [|done].
  rewrite Htext. unfold named in Hnamed.
  apply andb_true_iff in Hnamed as [_ Htruthy]. by apply Is_true_true.
Qed.

(** X10: on a batch none of whose labels yields a label type (for the
    labels modelled here: text labels and empty names), or with no label or
    no record at all, [create_label_type] changes nothing. *)
Theorem create_label_type_without_names (records : list Record.t) (project : Project)
    (st : Store) :
  (∀ record l, record ∈ records → l ∈ Record._label record →
               LabelOps.create_type l project = None) →
  LabeledExamples.create_label_type records project st = (Ok (), st).
Proof.
  intros Hnone.
  assert (implied_types records project = []) as Himplied.
  { destruct (implied_types records project) as [|ty tys] eqn:Himplied; [done|].
    destruct (implied_types_inv records project ty) as (record & l & Hr & Hl & Hty).
    { rewrite Himplied. by left. }
    by rewrite (Hnone record l Hr Hl) in Hty. }
  unfold LabeledExamples.create_label_type. fold (implied_types records project).
  by rewrite Himplied.
Qed.

(** X11: the base [LabeledExamples.create], whose [create_label] does
    nothing, is phase 1 followed by phase 2: it never raises, appends one
    example per record, derives the label types, and persists no label. *)
Theorem base_create_persists_no_label (records : list Record.t) (project : Project)
    (user : User) (st : Store) :
  ∃ new_examples st1 st',
    LabeledExamples.create_data records project st = (Ok new_examples, st1)
    ∧ LabeledExamples.create_label_type records project st1 = (Ok (), st')
    ∧ LabeledExamples.create records LabeledExamples.create_label project user st =
        (Ok (), st')
    ∧ examples st' = examples st ++ new_examples
    ∧ length new_examples = length records
    ∧ categories st' = categories st
    ∧ spans st' = spans st
    ∧ text_labels st' = text_labels st
    ∧ relations st' = relations st.
Proof.
  destruct (create_data_keeps_record_order_aux records project st)
    as (new_examples & st1 & Hdata & Hlen & _ & Hex & Hframe).
  destruct Hframe as (_ & _ & _ & Hc & Hs & Ht & Hr).
  pose proof (create_label_type_spec records project st1) as Htypes.
  set (st' := with_label_types st1 _) in Htypes.
  exists new_examples, st1, st'. split; [done|]. split; [done|]. split.
  { unfold LabeledExamples.create, mbind, M_bind. by rewrite Hdata, Htypes. }
  unfold st'. cbn [with_label_types examples categories spans text_labels relations].
  by rewrite Hex, Hc, Hs, Ht, Hr.
Qed.

(** ** The category, span and span-and-category variants *)

Lemma create_Raise_inv (l : Label) (user : User) (example : Saved Example)
    (mapping : gmap string (Saved LabelType)) (kwargs : Kwargs) (e : exn) :
  LabelOps.create l user example mapping kwargs = Raise e → ∃ k, e = KeyError k.
Proof.
  destruct l as [n|s|t|r]; [| |done|].
  - unfold LabelOps.create, getitem. destruct (mapping !! n); simpl; [done|].
    intros [= <-]. eauto.
  - apply (span_row_Raise_inv user mapping (s, example)).
  - apply (relation_row_Raise_inv user mapping kwargs (r, example)).
Qed.

Lemma extract_labels_unfiltered (records : list Record.t) (user : User)
    (examples : list (Saved Example)) (mapping : gmap string (Saved LabelType))
    (kwargs : Kwargs) :
  LabeledExamples.extract_labels records user examples mapping None kwargs =
    comprehension (label_row user mapping) (label_pairs records examples).
Proof.
  unfold LabeledExamples.extract_labels, label_pairs.
  rewrite <-comprehension_concat. f_equal.
  apply comprehension_ext. intros [record example] _.
  unfold Record.create_label. by rewrite comprehension_fmap.
Qed.

Lemma filter_categories (labels : list Label) :
  filter (λ l, isinstance l CategoryLabel) labels =
    LCategory <$> omap (λ l, match l with LCategory n => Some n | _ => None end) labels.
Proof.
  induction labels as [|l labels IH]; [done|].
  destruct l; cbn [omap list_omap];
    (rewrite filter_cons_True by done) || (rewrite filter_cons_False by (by intros ?));
    by rewrite IH.
Qed.

Lemma extract_labels_categories (records : list Record.t) (user : User)
    (examples : list (Saved Example)) (mapping : gmap string (Saved LabelType)) :
  LabeledExamples.extract_labels records user examples mapping (Some CategoryLabel)
    no_kwargs =
    comprehension (category_row user mapping) (category_pairs records examples).
Proof.
  unfold LabeledExamples.extract_labels, category_pairs.
  rewrite <-comprehension_concat. f_equal.
  apply comprehension_ext. intros [record example] _.
  unfold Record.create_label. rewrite filter_categories. fold (categories_of record).
  by rewrite !comprehension_fmap.
Qed.

Lemma comprehension_as_category (rows : list CategoryModel) :
  comprehension as_category (Category <$> rows) = Ok rows.
Proof.
  rewrite comprehension_fmap.
  rewrite (comprehension_Ok_fmap _ (λ x, x)) by done. by rewrite list_fmap_id.
Qed.

Lemma Category_bulk_create_run (rows : list CategoryModel) (st : Store) :
  Objects.Category_bulk_create (Category <$> rows) st = (Ok (), with_new_categories st rows).
Proof. unfold Objects.Category_bulk_create. by rewrite comprehension_as_category. Qed.

Lemma category_rows_inv (user : User) (mapping : gmap string (Saved LabelType))
    (pairs : list (string * Saved Example)) (labels : list LabelModel) :
  comprehension (category_row user mapping) pairs = Ok labels →
  ∃ rows, labels = Category <$> rows ∧
    Forall2 (λ d p, ∃ ty, mapping !! p.1 = Some ty ∧ d = mkCategory user p.2 ty) rows pairs.
Proof.
  intros Hc%comprehension_Ok_inv.
  induction Hc as [|p m pairs labels Hp _ (rows & -> & Hrows)].
  - exists []. split; [done|constructor].
  - unfold category_row, LabelOps.create, getitem in Hp.
    destruct (mapping !! p.1) as [ty|] eqn:Hty; simplify_eq/=.
    exists (mkCategory user p.2 ty :: rows). split; [done|]. constructor; eauto.
Qed.

(** The rows made from the labels of a batch of category labels. *)
Lemma category_label_rows (user : User) (mapping : gmap string (Saved LabelType))
    (pairs : list (Label * Saved Example)) :
  Forall (λ p, isinstance p.1 CategoryLabel) pairs →
  (∀ p, p ∈ pairs → is_Some (mapping !! LabelOps.name p.1)) →
  ∃ rows,
    comprehension (label_row user mapping) pairs = Ok (Category <$> rows)
    ∧ Forall2 (λ d p, ∃ ty, mapping !! LabelOps.name p.1 = Some ty
                            ∧ d = mkCategory user p.2 ty) rows pairs.
Proof.
  induction 1 as [|[l example] pairs Hl _ IH]; intros Hnames.
  - exists []. split; [done|constructor].
  - destruct IH as (rows & Hrows & Hall); [intros q Hq; apply Hnames; by right|].
    destruct (Hnames (l, example)) as [ty Hty]; [by left|].
    destruct l as [n| | |]; try done. simpl in Hty.
    exists (mkCategory user example ty :: rows). split.
    + cbn [comprehension]. rewrite Hrows.
      unfold label_row, LabelOps.create, getitem. simpl. by rewrite Hty.
    + constructor; [|done]. by exists ty.
Qed.

Lemma span_label_rows (user : User) (mapping : gmap string (Saved LabelType))
    (pairs : list (Label * Saved Example)) :
  Forall (λ p, isinstance p.1 SpanLabel) pairs →
  (∀ p, p ∈ pairs → is_Some (mapping !! LabelOps.name p.1)) →
  ∃ rows,
    comprehension (label_row user mapping) pairs = Ok (Span <$> rows)
    ∧ Forall2 (λ d p, ∃ s ty, p.1 = LSpan s ∧ mapping !! span_label s = Some ty
                              ∧ d = span_model user ty (s, p.2)) rows pairs.
Proof.
  induction 1 as [|[l example] pairs Hl _ IH]; intros Hnames.
  - exists []. split; [done|constructor].
  - destruct IH as (rows & Hrows & Hall); [intros q Hq; apply Hnames; by right|].
    destruct (Hnames (l, example)) as [ty Hty]; [by left|].
    destruct l as [|s| |]; try done. simpl in Hty.
    exists (span_model user ty (s, example) :: rows). split.
    + cbn [comprehension]. rewrite Hrows.
      unfold label_row, LabelOps.create, getitem. simpl. by rewrite Hty.
    + constructor; [|done]. by exists s, ty.
Qed.

(** X12: on a batch of category labels whose names are texts of the
    project's category types, [CategoryExamples.create_label] appends one
    [Category] row per label, in order, for the given user, the example of
    the label's record and the category type filed under the label's name;
    nothing else in the store changes. *)
Theorem category_create_label_persists_each_label (records : list Record.t)
    (project : Project) (user : User) (examples : list (Saved Example)) (st : Store) :
  Forall (λ p, isinstance p.1 CategoryLabel) (label_pairs records examples) →
  (∀ p, p ∈ label_pairs records examples →
        is_Some (mapping_of st project CategoryType !! LabelOps.name p.1)) →
  ∃ rows,
    CategoryExamples.create_label records project user examples st =
      (Ok (), with_new_categories st rows)
    ∧ Forall2 (λ d p, ∃ ty,
                 mapping_of st project CategoryType !! LabelOps.name p.1 = Some ty
                 ∧ d = mkCategory user p.2 ty)
        rows (label_pairs records examples).
Proof.
  intros Hkind Hnames.
  destruct (category_label_rows user _ _ Hkind Hnames) as (rows & Hrows & Hall).
  exists rows. split; [|done].
  unfold CategoryExamples.create_label, mbind, M_bind, lift.
  rewrite create_mapping_run, extract_labels_unfiltered, Hrows.
  apply Category_bulk_create_run.
Qed.

(** X13: on a batch of span labels whose names are texts of the project's
    span types, [SpanExamples.create_label] appends one [Span] row per
    label, in order, with the label's uuid and offsets, the example of the
    label's record and the span type filed under the label's name; nothing
    else in the store changes. *)
Theorem span_create_label_persists_each_label (records : list Record.t)
    (project : Project) (user : User) (examples : list (Saved Example)) (st : Store) :
  Forall (λ p, isinstance p.1 SpanLabel) (label_pairs records examples) →
  (∀ p, p ∈ label_pairs records examples →
        is_Some (mapping_of st project SpanType !! LabelOps.name p.1)) →
  ∃ rows,
    SpanExamples.create_label records project user examples st =
      (Ok (), with_new_spans st rows)
    ∧ Forall2 (λ d p, ∃ s ty,
                 p.1 = LSpan s
                 ∧ mapping_of st project SpanType !! span_label s = Some ty
                 ∧ d = span_model user ty (s, p.2))
        rows (label_pairs records examples).
Proof.
  intros Hkind Hnames.
  destruct (span_label_rows user _ _ Hkind Hnames) as (rows & Hrows & Hall).
  exists rows. split; [|done].
  unfold SpanExamples.create_label, mbind, M_bind, lift.
  rewrite create_mapping_run, extract_labels_unfiltered, Hrows.
  apply Span_bulk_create_run.
Qed.

(** X14: for the span-and-category variant, on records of any mix of
    labels: when the names of the span labels and of the category labels
    that meet an example are texts of the project's span and category
    types, [create_label] appends one [Span] row per span label and one
    [Category] row per category label, each for the example of its record;
    text and relation labels are passed over and nothing else changes. *)
Theorem span_and_category_create_label_persists (records : list Record.t)
    (project : Project) (user : User) (examples : list (Saved Example)) (st : Store) :
  (∀ p, p ∈ span_pairs records examples →
        is_Some (mapping_of st project SpanType !! span_label p.1)) →
  (∀ p, p ∈ category_pairs records examples →
        is_Some (mapping_of st project CategoryType !! p.1)) →
  ∃ span_rows category_rows,
    SpanAndCategoryExamples.create_label records project user examples st =
      (Ok (), with_new_categories (with_new_spans st span_rows) category_rows)
    ∧ Forall2 (λ d p, ∃ ty, mapping_of st project SpanType !! span_label p.1 = Some ty
                            ∧ d = span_model user ty p)
        span_rows (span_pairs records examples)
    ∧ Forall2 (λ d p, ∃ ty, mapping_of st project CategoryType !! p.1 = Some ty
                            ∧ d = mkCategory user p.2 ty)
        category_rows (category_pairs records examples).
Proof.
  intros Hspans Hcategories.
  destruct (comprehension_is_Ok (span_row user (mapping_of st project SpanType))
              (span_pairs records examples)) as [span_labels Hsl].
  { intros p Hp. destruct (Hspans p Hp) as [ty Hty].
    eexists. unfold span_row, LabelOps.create, getitem. by rewrite Hty. }
  destruct (span_rows_inv _ _ _ _ Hsl) as (span_rows & -> & Hsr).
  destruct (comprehension_is_Ok (category_row user (mapping_of st project CategoryType))
              (category_pairs records examples)) as [category_labels Hcl].
  { intros p Hp. destruct (Hcategories p Hp) as [ty Hty].
    eexists. unfold category_row, LabelOps.create, getitem. by rewrite Hty. }
  destruct (category_rows_inv _ _ _ _ Hcl) as (category_rows & -> & Hcr).
  exists span_rows, category_rows. split; [|split; [by apply Forall2_flip|done]].
  unfold SpanAndCategoryExamples.create_label, mbind, M_bind, lift.
  rewrite !create_mapping_run, extract_labels_spans, Hsl, extract_labels_categories, Hcl.
  rewrite Span_bulk_create_run. apply Category_bulk_create_run.
Qed.

(** X15: in the category, span, text and span-and-category variants every
    name is looked up before anything is written: when [create_label] ends
    in a [KeyError], the store is exactly as it was before the call (in the
    span-and-category variant no span is stored when a category name is
    missing). *)
Theorem create_label_lookup_failure_writes_nothing (records : list Record.t)
    (project : Project) (user : User) (examples : list (Saved Example)) (st : Store) :
  (∀ k st', CategoryExamples.create_label records project user examples st =
              (Raise (KeyError k), st') → st' = st)
  ∧ (∀ k st', SpanExamples.create_label records project user examples st =
                (Raise (KeyError k), st') → st' = st)
  ∧ (∀ k st', TextExamples.create_label records project user examples st =
                (Raise (KeyError k), st') → st' = st)
  ∧ (∀ k st', SpanAndCategoryExamples.create_label records project user examples st =
                (Raise (KeyError k), st') → st' = st).
Proof.
  split; [|split; [|split]]; intros k st'.
  - unfold CategoryExamples.create_label, mbind, M_bind, lift.
    rewrite create_mapping_run.
    destruct (LabeledExamples.extract_labels _ _ _ _ _ _) as [ms|e']; [|by intros [= _ <-]].
    unfold Objects.Category_bulk_create.
    destruct (comprehension as_category ms); [done|by intros [= _ <-]].
  - unfold SpanExamples.create_label, mbind, M_bind, lift.
    rewrite create_mapping_run.
    destruct (LabeledExamples.extract_labels _ _ _ _ _ _) as [ms|e']; [|by intros [= _ <-]].
    unfold Objects.Span_bulk_create.
    destruct (comprehension as_span ms); [done|by intros [= _ <-]].
  - unfold TextExamples.create_label, mbind, M_bind, lift.
    destruct (LabeledExamples.extract_labels _ _ _ _ _ _) as [ms|e']; [|by intros [= _ <-]].
    unfold Objects.TextLabel_bulk_create.
    destruct (comprehension as_text_label ms); [done|by intros [= _ <-]].
  - unfold SpanAndCategoryExamples.create_label, mbind, M_bind, lift.
    rewrite !create_mapping_run, extract_labels_spans, extract_labels_categories.
    destruct (comprehension (span_row _ _) _) as [sl|e'] eqn:Hsl; [|by intros [= _ <-]].
    destruct (comprehension (category_row _ _) _) as [cl|e'] eqn:Hcl;
      [|by intros [= _ <-]].
    destruct (span_rows_inv _ _ _ _ Hsl) as (span_rows & -> & _).
    destruct (category_rows_inv _ _ _ _ Hcl) as (category_rows & -> & _).
    by rewrite Span_bulk_create_run, Category_bulk_create_run.
Qed.

(** ** The relation variant, when it fails *)

(** X16: [RelationExamples.create_label] inserts the spans before it looks
    at the relations: when the span names resolve and a relation label that
    meets an example references a span key that no span label of the batch
    carries, the call ends in a [KeyError], no relation is stored, and the
    spans of the batch stay in the store. *)
Theorem dangling_relation_leaves_spans (records : list Record.t) (project : Project)
    (user : User) (examples : list (Saved Example)) (st : Store)
    (record : Record.t) (example : Saved Example) (r : RelationL) :
  (∀ p, p ∈ span_pairs records examples →
        is_Some (mapping_of st project SpanType !! span_label p.1)) →
  (record, example) ∈ zip records examples →
  LRelation r ∈ Record._label record →
  from_id r ∉ id <$> batch_spans records ∨ to_id r ∉ id <$> batch_spans records →
  ∃ k rows,
    RelationExamples.create_label records project user examples st =
      (Raise (KeyError k), with_new_spans st rows)
    ∧ Forall2 (λ d p, ∃ ty, mapping_of st project SpanType !! span_label p.1 = Some ty
                            ∧ d = span_model user ty p)
        rows (span_pairs records examples).
Proof.
  intros Hspans Hzip Hr Hdangling. rewrite relation_create_label_run.
  destruct (comprehension_is_Ok (span_row user (mapping_of st project SpanType))
              (span_pairs records examples)) as [labels Hlabels].
  { intros p Hp. destruct (Hspans p Hp) as [ty Hty].
    eexists. unfold span_row, LabelOps.create, getitem. by rewrite Hty. }
  rewrite Hlabels.
  destruct (span_rows_inv _ _ _ _ Hlabels) as (rows & -> & Hrows).
  rewrite comprehension_model_uuid, Span_bulk_create_run.
  destruct (RelationExamples.build_id_to_span _ _) as [id_to_span|e] eqn:Hbuild.
  - destruct (build_id_to_span_Ok_inv _ _ _ Hbuild) as [_ Hnone].
    pose proof (elem_of_relation_pairs _ _ _ _ _ Hzip Hr) as Hin.
    destruct (relation_row_dangling user (mapping_of st project RelationType)
                id_to_span (r, example)) as [k Hk].
    { simpl. rewrite !Hnone. done. }
    destruct (comprehension_Raise _ _ _ _ Hin Hk) as (p' & e' & _ & Hp' & ->).
    apply relation_row_Raise_inv in Hp' as [k' ->].
    exists k', rows. split; [done|by apply Forall2_flip].
  - apply build_id_to_span_Raise_inv in Hbuild as [k ->].
    exists k, rows. split; [done|by apply Forall2_flip].
Qed.

(** ** The text variant, on typed labels *)

(** X17: the text variant has no label types to offer: when a record of
    the batch holds a label that is not a text label, [TextExamples.create]
    ends in a [KeyError] after phase 1, so the examples of the batch are in
    the store while no text label and no label type is. *)
Theorem text_create_rejects_typed_labels (records : list Record.t) (project : Project)
    (user : User) (st : Store) (record : Record.t) (l : Label) :
  record ∈ records → l ∈ Record._label record → isinstance l TextLabelClass = false →
  ∃ k new_examples st',
    TextExamples.create records project user st = (Raise (KeyError k), st')
    ∧ LabeledExamples.create_data records project st = (Ok new_examples, st')
    ∧ length new_examples = length records
    ∧ examples st' = examples st ++ new_examples
    ∧ text_labels st' = text_labels st
    ∧ (∀ c, label_types st' c = label_types st c).
Proof.
  intros Hrecord Hl Htyped.
  destruct (create_data_keeps_record_order_aux records project st)
    as (new_examples & st1 & Hdata & Hlen & _ & Hex & Hframe).
  destruct Hframe as (Hct & Hst & Hrt & _ & _ & Htl & _).
  unfold TextExamples.create, TextExamples.create_label, mbind, M_bind, lift.
  rewrite Hdata. cbn beta iota. rewrite extract_labels_unfiltered.
  assert (∃ example, (record, example) ∈ zip records new_examples) as [example Hzip].
  { apply list_elem_of_lookup in Hrecord as [i Hi].
    destruct (lookup_lt_is_Some_2 new_examples i) as [example Hx].
    { rewrite Hlen. by eapply lookup_lt_Some. }
    exists example. apply list_elem_of_lookup. exists i.
    by rewrite lookup_zip_with, Hi, Hx. }
  assert ((l, example) ∈ label_pairs records new_examples) as Hin.
  { unfold label_pairs. apply elem_of_concat.
    exists ((λ l, (l, example)) <$> Record._label record). split.
    - apply list_elem_of_fmap. by exists (record, example).
    - apply list_elem_of_fmap. eauto. }
  assert (∃ k, label_row user ∅ (l, example) = Raise (KeyError k)) as [k Hk].
  { unfold label_row, LabelOps.create, getitem. destruct l; simplify_eq/=; eauto. }
  destruct (comprehension_Raise _ _ _ _ Hin Hk) as ([l' x'] & e' & _ & Hp' & ->).
  apply create_Raise_inv in Hp' as [k' ->].
  exists k', new_examples, st1. split; [done|]. split; [done|].
  split; [done|]. split; [done|]. split; [done|]. by intros [].
Qed.

(** ** The identity-to-span dictionary *)

(** X18: the dictionary from span keys to durable spans is built from left
    to right, so when every span label of the batch has a durable span under
    its uuid, a key maps to the durable span of the last span label that
    carries it, and a key that no span label carries is absent. *)
Theorem id_to_span_keeps_last_span (uuid_to_span : gmap UUID (Saved SpanModel))
    (all : list SpanL) :
  (∀ s, s ∈ all → is_Some (uuid_to_span !! uuid s)) →
  ∃ id_to_span,
    RelationExamples.build_id_to_span uuid_to_span (LSpan <$> all) = Ok id_to_span
    ∧ ∀ k, id_to_span !! k =
             (s ← last (filter (λ s, id s = k) all); uuid_to_span !! uuid s).
Proof.
  rewrite build_id_to_span_entries.
  induction all as [|s all IH] using rev_ind; intros Hall.
  - exists ∅. split; [done|]. intros k. by rewrite lookup_empty.
  - destruct IH as (m & Hm & Hlook); [intros s' Hs'; apply Hall, elem_of_app; by left|].
    destruct (Hall s) as [d Hd]; [apply elem_of_app; right; by left|].
    destruct (comprehension (id_entry uuid_to_span) all) as [kvs|e] eqn:Hkvs; [|done].
    injection Hm as <-.
    exists (<[id s := d]> (dict_of kvs)). split.
    + rewrite comprehension_app, Hkvs. cbn [comprehension].
      unfold id_entry at 1, getitem. rewrite Hd. cbn. by rewrite dict_of_snoc.
    + intros k. rewrite filter_app. destruct (decide (id s = k)) as [<-|Hne].
      * rewrite lookup_insert_eq, filter_cons_True by done.
        rewrite filter_nil, last_snoc. by cbn.
      * rewrite lookup_insert_ne by done. rewrite filter_cons_False by done.
        rewrite filter_nil, app_nil_r. apply Hlook.
Qed.

(** X19: the relation variant does not pass over a record without example:
    when the span names resolve and a span label of the batch is in a record
    that meets no example (its uuid is not among those inserted), the
    dictionary cannot be built and [RelationExamples.create_label] ends in a
    [KeyError], with the spans of the records that do meet an example
    already stored and no relation stored. *)
Theorem relation_create_label_needs_every_example (records : list Record.t)
    (project : Project) (user : User) (examples : list (Saved Example)) (st : Store)
    (s : SpanL) :
  (∀ p, p ∈ span_pairs records examples →
        is_Some (mapping_of st project SpanType !! span_label p.1)) →
  s ∈ batch_spans records →
  uuid s ∉ uuid <$> (span_pairs records examples).*1 →
  ∃ k rows,
    RelationExamples.create_label records project user examples st =
      (Raise (KeyError k), with_new_spans st rows)
    ∧ length rows = length (span_pairs records examples).
Proof.
  intros Hspans Hs Hunpaired. rewrite relation_create_label_run.
  destruct (comprehension_is_Ok (span_row user (mapping_of st project SpanType))
              (span_pairs records examples)) as [labels Hlabels].
  { intros p Hp. destruct (Hspans p Hp) as [ty Hty].
    eexists. unfold span_row, LabelOps.create, getitem. by rewrite Hty. }
  rewrite Hlabels.
  destruct (span_rows_inv _ _ _ _ Hlabels) as (rows & -> & Hrows).
  rewrite comprehension_model_uuid, Span_bulk_create_run.
  pose proof (span_rows_uuids _ _ _ _ Hrows) as Huuids.
  assert (uuid_to_span_of (with_new_spans st rows) (sp_uuid <$> rows) !! uuid s = None)
    as Hnone.
  { unfold uuid_to_span_of. apply dict_of_lookup_None. rewrite <-list_fmap_compose.
    intros (d & Hd & [Hin _]%list_elem_of_filter)%list_elem_of_fmap.
    simpl in Hd. rewrite Hd, Huuids in *. done. }
  destruct (RelationExamples.build_id_to_span _ _) as [id_to_span|e] eqn:Hbuild.
  - exfalso. destruct (build_id_to_span_Ok_inv _ _ _ Hbuild) as [Hsome Hnone'].
    destruct (id_to_span !! id s) as [d|] eqn:Hd.
    + rewrite build_id_to_span_entries in Hbuild.
      destruct (comprehension _ (batch_spans records)) as [kvs|] eqn:Hkvs; [|done].
      apply comprehension_Ok_inv in Hkvs.
      apply list_elem_of_lookup in Hs as [i Hi].
      destruct (Forall2_lookup_l _ _ _ _ _ Hkvs Hi) as (kv & _ & Hentry).
      unfold id_entry, getitem in Hentry. by rewrite Hnone in Hentry.
    + apply Hnone' in Hd. apply Hd. apply list_elem_of_fmap. eauto.
  - apply build_id_to_span_Raise_inv in Hbuild as [k ->].
    exists k, rows. split; [done|]. by rewrite (Forall2_length _ _ _ Hrows).
Qed.

(** ** Whole commits *)

Lemma elem_of_label_pairs_inv (records : list Record.t) (examples : list (Saved Example))
    (p : Label * Saved Example) :
  p ∈ label_pairs records examples →
  ∃ record, record ∈ records ∧ p.1 ∈ Record._label record.
Proof.
  unfold label_pairs. intros (ls & Hls & Hp)%elem_of_concat.
  apply list_elem_of_fmap in Hls as ([record example] & -> & Hzip).
  apply list_elem_of_fmap in Hp as (l & -> & Hl).
  exists record. split; [by eapply elem_of_zip_l|done].
Qed.

(** X20: the whole commit of the category variant, [CategoryExamples.create],
    on a batch whose labels are category labels with non-empty names: the
    three phases compose, the commit succeeds, one example per record and
    one [Category] row per label are appended, and each row references the
    example of its record and a stored category type of the project whose
    text is the label's name. *)
Theorem category_create_commits_batch (records : list Record.t) (project : Project)
    (user : User) (st : Store) :
  (∀ record l, record ∈ records → l ∈ Record._label record →
               isinstance l CategoryLabel ∧ truthy (LabelOps.name l)) →
  ∃ st' new_examples rows,
    CategoryExamples.create records project user st = (Ok (), st')
    ∧ examples st' = examples st ++ new_examples
    ∧ length new_examples = length records
    ∧ categories st' = categories st ++ assign_pks (next_pk (categories st)) rows
    ∧ Forall2 (λ d p, cat_user d = user ∧ cat_example d = p.2
                      ∧ cat_label d ∈ category_types st'
                      ∧ lt_project (row (cat_label d)) = project
                      ∧ lt_text (row (cat_label d)) = LabelOps.name p.1)
        rows (label_pairs records new_examples).
Proof.
  intros Hlabels.
  destruct (create_data_keeps_record_order_aux records project st)
    as (new_examples & st1 & Hdata & Hlen & _ & Hex & Hframe).
  destruct Hframe as (_ & _ & _ & Hcat & _ & _ & _).
  pose proof (create_label_type_spec records project st1) as Htypes.
  set (st2 := with_label_types st1 _) in Htypes.
  destruct (category_label_rows user (mapping_of st2 project CategoryType)
              (label_pairs records new_examples)) as (rows & Hrows & Hall).
  { apply Forall_forall. intros p (record & Hrecord & Hl)%elem_of_label_pairs_inv.
    by destruct (Hlabels record p.1 Hrecord Hl). }
  { intros p (record & Hrecord & Hl)%elem_of_label_pairs_inv.
    destruct (Hlabels record p.1 Hrecord Hl) as [Hkind Hname].
    destruct p as [[n| | |] example]; try done. simpl in *.
    apply (mapping_of_implied records project st1 st2
             (mkLabelType CategoryType project n)); [done| |done].
    eapply implied_types_elem; [done..|].
    unfold LabelOps.create_type. simpl. by destruct (truthy n). }
  exists (with_new_categories st2 rows), new_examples, rows. split.
  { unfold CategoryExamples.create, LabeledExamples.create, mbind, M_bind.
    rewrite Hdata, Htypes.
    unfold CategoryExamples.create_label, mbind, M_bind, lift.
    rewrite create_mapping_run, extract_labels_unfiltered, Hrows.
    apply Category_bulk_create_run. }
  unfold st2. cbn [with_new_categories with_label_types examples categories category_types].
  rewrite Hex, Hcat. split; [done|]. split; [done|]. split; [done|].
  eapply Forall2_impl; [exact Hall|].
  intros d p (ty & Hty & ->). cbn [cat_user cat_example cat_label].
  destruct (mapping_of_lookup _ _ _ _ _ Hty) as (Hin & Hp & Ht).
  repeat (split; [done|]). done.
Qed.

(** ** The further properties on sample batches *)

Ltac elem_of_compute H :=
  match type of H with
  | ?x ∈ ?l => let l' := eval vm_compute in l in change (x ∈ l') in H
  end;
  repeat match type of H with
  | _ ∈ [] => by apply elem_of_nil in H
  | _ ∈ _ :: _ =>
      let Heq := fresh "Heq" in
      apply elem_of_cons in H as [Heq|H];
      [first [discriminate Heq | subst | injection Heq as -> ->]|]
  end.

Lemma clean_warns_iff_labels_removed_witness :
  Forall (λ l, named l) (Record._label Scenario.tagged_record)
  ∧ (length (cleaner_clean first_only_cleaner (Record._label Scenario.tagged_record))
     ≤ length (Record._label Scenario.tagged_record))%nat
  ∧ (Record.clean Scenario.tagged_record first_only_cleaner).2 =
      Some (mkFileParseException "corpus.jsonl" 1 "only one label is allowed").
Proof.
  assert (Forall (λ l, named l) (Record._label Scenario.tagged_record)) as H1
    by (repeat constructor).
  assert (length (cleaner_clean first_only_cleaner (Record._label Scenario.tagged_record))
          ≤ length (Record._label Scenario.tagged_record))%nat as H2 by (simpl; lia).
  split; [exact H1|]. split; [exact H2|].
  destruct (clean_warns_iff_labels_removed Scenario.tagged_record first_only_cleaner H1 H2)
    as (_ & _ & _ & _ & _ & Hwarn & _).
  apply Hwarn. simpl. lia.
Defined.

Lemma clean_adds_no_label_type_witness :
  cleaner_clean first_only_cleaner (Record._label Scenario.tagged_record) ⊆+
    Record._label Scenario.tagged_record
  ∧ Record.create_label_type (Record.clean Scenario.tagged_record first_only_cleaner).1 7 ⊆+
      Record.create_label_type Scenario.tagged_record 7.
Proof.
  assert (cleaner_clean first_only_cleaner (Record._label Scenario.tagged_record) ⊆+
            Record._label Scenario.tagged_record) as H1.
  { apply sublist_submseteq, sublist_take. }
  split; [exact H1|].
  exact (clean_adds_no_label_type Scenario.tagged_record first_only_cleaner 7 H1).
Defined.

Lemma extract_labels_of_two_batches_witness :
  length [Scenario.text_record] = length [Scenario.example]
  ∧ LabeledExamples.extract_labels ([Scenario.text_record] ++ [Scenario.text_record]) 9
      ([Scenario.example] ++ [Scenario.example]) ∅ None no_kwargs =
      (labels1 ← LabeledExamples.extract_labels [Scenario.text_record] 9
                   [Scenario.example] ∅ None no_kwargs;
       labels2 ← LabeledExamples.extract_labels [Scenario.text_record] 9
                   [Scenario.example] ∅ None no_kwargs;
       Ok (labels1 ++ labels2)).
Proof.
  assert (length [Scenario.text_record] = length [Scenario.example]) as H1 by reflexivity.
  split; [exact H1|].
  exact (proj1 (extract_labels_of_two_batches [Scenario.text_record]
                  [Scenario.text_record] 9 [Scenario.example] [Scenario.example]
                  ∅ None no_kwargs H1)).
Defined.

Lemma extract_labels_first_error_witness :
  LabeledExamples.extract_labels [Scenario.text_record; Scenario.tagged_record] 9
    [Scenario.example; Scenario.example] ∅ None no_kwargs =
    Raise (KeyError (KStr "PER")).
Proof.
  apply (extract_labels_first_error [Scenario.text_record; Scenario.tagged_record] 9
           [Scenario.example; Scenario.example] ∅ None no_kwargs
           1 Scenario.tagged_record Scenario.example).
  - reflexivity.
  - reflexivity.
  - intros j r x Hj Hr Hx. destruct j as [|j]; [|lia].
    injection Hr as <-. injection Hx as <-. eexists. vm_compute. reflexivity.
  - vm_compute. reflexivity.
Defined.

Lemma create_label_type_feeds_create_mapping_witness :
  ∃ st2 mapping stored,
    LabeledExamples.create_label_type [Scenario.tagged_record] 7 empty_store = (Ok (), st2)
    ∧ LabeledExamples.create_mapping 7 CategoryType st2 = (Ok mapping, st2)
    ∧ mapping !! "POS" = Some stored
    ∧ stored ∈ label_types st2 CategoryType
    ∧ lt_project (row stored) = 7%nat
    ∧ lt_text (row stored) = "POS".
Proof.
  apply (create_label_type_feeds_create_mapping [Scenario.tagged_record] 7 empty_store
           Scenario.tagged_record (LCategory "POS") (mkLabelType CategoryType 7 "POS")).
  - by left.
  - right. by left.
  - reflexivity.
Defined.

Lemma create_label_type_without_names_witness :
  (∀ record l, record ∈ [Scenario.text_record] → l ∈ Record._label record →
               LabelOps.create_type l 7 = None)
  ∧ LabeledExamples.create_label_type [Scenario.text_record] 7 Sample.store =
      (Ok (), Sample.store).
Proof.
  assert (∀ record l, record ∈ [Scenario.text_record] → l ∈ Record._label record →
                      LabelOps.create_type l 7 = None) as H1.
  { intros record l Hrecord Hl. elem_of_compute Hrecord. elem_of_compute Hl. reflexivity. }
  split; [exact H1|].
  exact (create_label_type_without_names [Scenario.text_record] 7 Sample.store H1).
Defined.

Lemma category_create_label_persists_each_label_witness :
  ∃ rows,
    CategoryExamples.create_label [Sample.category_record] 7 9 [Scenario.example]
      Sample.store = (Ok (), with_new_categories Sample.store rows)
    ∧ Forall2 (λ d p, ∃ ty,
                 mapping_of Sample.store 7 CategoryType !! LabelOps.name p.1 = Some ty
                 ∧ d = mkCategory 9 p.2 ty)
        rows (label_pairs [Sample.category_record] [Scenario.example]).
Proof.
  apply (category_create_label_persists_each_label [Sample.category_record] 7 9
           [Scenario.example] Sample.store).
  - apply Forall_forall. intros p Hp. elem_of_compute Hp; done.
  - intros p Hp. elem_of_compute Hp; vm_compute; eexists; reflexivity.
Defined.

Lemma span_create_label_persists_each_label_witness :
  ∃ rows,
    SpanExamples.create_label [Sample.span_record] 7 9 [Scenario.example] Sample.store =
      (Ok (), with_new_spans Sample.store rows)
    ∧ Forall2 (λ d p, ∃ s ty,
                 p.1 = LSpan s
                 ∧ mapping_of Sample.store 7 SpanType !! span_label s = Some ty
                 ∧ d = span_model 9 ty (s, p.2))
        rows (label_pairs [Sample.span_record] [Scenario.example]).
Proof.
  apply (span_create_label_persists_each_label [Sample.span_record] 7 9
           [Scenario.example] Sample.store).
  - apply Forall_forall. intros p Hp. elem_of_compute Hp; done.
  - intros p Hp. elem_of_compute Hp; vm_compute; eexists; reflexivity.
Defined.

Lemma span_and_category_create_label_persists_witness :
  ∃ span_rows category_rows,
    SpanAndCategoryExamples.create_label [Scenario.tagged_record] 7 9 [Scenario.example]
      Sample.store =
      (Ok (), with_new_categories (with_new_spans Sample.store span_rows) category_rows)
    ∧ Forall2 (λ d p, ∃ ty, mapping_of Sample.store 7 SpanType !! span_label p.1 = Some ty
                            ∧ d = span_model 9 ty p)
        span_rows (span_pairs [Scenario.tagged_record] [Scenario.example])
    ∧ Forall2 (λ d p, ∃ ty, mapping_of Sample.store 7 CategoryType !! p.1 = Some ty
                            ∧ d = mkCategory 9 p.2 ty)
        category_rows (category_pairs [Scenario.tagged_record] [Scenario.example]).
Proof.
  apply (span_and_category_create_label_persists [Scenario.tagged_record] 7 9
           [Scenario.example] Sample.store).
  - intros p Hp. elem_of_compute Hp; vm_compute; eexists; reflexivity.
  - intros p Hp. elem_of_compute Hp; vm_compute; eexists; reflexivity.
Defined.

Lemma dangling_relation_leaves_spans_witness :
  ∃ k rows,
    RelationExamples.create_label [Scenario.dangling_record] 7 9 [Scenario.example]
      Scenario.store = (Raise (KeyError k), with_new_spans Scenario.store rows)
    ∧ Forall2 (λ d p, ∃ ty, mapping_of Scenario.store 7 SpanType !! span_label p.1 = Some ty
                            ∧ d = span_model 9 ty p)
        rows (span_pairs [Scenario.dangling_record] [Scenario.example]).
Proof.
  apply (dangling_relation_leaves_spans [Scenario.dangling_record] 7 9 [Scenario.example]
           Scenario.store Scenario.dangling_record Scenario.example Scenario.dangling).
  - intros p Hp. elem_of_compute Hp; vm_compute; eexists; reflexivity.
  - by left.
  - right. by left.
  - right. intros Hin. elem_of_compute Hin.
Defined.

Lemma text_create_rejects_typed_labels_witness :
  ∃ k new_examples st',
    TextExamples.create [Scenario.tagged_record] 7 9 empty_store = (Raise (KeyError k), st')
    ∧ LabeledExamples.create_data [Scenario.tagged_record] 7 empty_store =
        (Ok new_examples, st')
    ∧ length new_examples = length [Scenario.tagged_record]
    ∧ examples st' = examples empty_store ++ new_examples
    ∧ text_labels st' = text_labels empty_store
    ∧ (∀ c, label_types st' c = label_types empty_store c).
Proof.
  apply (text_create_rejects_typed_labels [Scenario.tagged_record] 7 9 empty_store
           Scenario.tagged_record (LCategory "POS")).
  - by left.
  - right. by left.
  - reflexivity.
Defined.

Lemma id_to_span_keeps_last_span_witness :
  ∃ id_to_span,
    RelationExamples.build_id_to_span
      {["a1" := Corpus.durable_a1; "b1" := Corpus.durable_b1]}
      (LSpan <$> [Corpus.span_a1; Corpus.span_b1]) = Ok id_to_span
    ∧ (∀ k, id_to_span !! k =
              (s ← last (filter (λ s, id s = k) [Corpus.span_a1; Corpus.span_b1]);
               ({["a1" := Corpus.durable_a1; "b1" := Corpus.durable_b1]}
                  : gmap UUID (Saved SpanModel)) !! uuid s))
    ∧ id_to_span !! 1%Z = Some Corpus.durable_b1
    ∧ id_to_span !! 2%Z = None.
Proof.
  destruct (id_to_span_keeps_last_span
              {["a1" := Corpus.durable_a1; "b1" := Corpus.durable_b1]}
              [Corpus.span_a1; Corpus.span_b1]) as (id_to_span & Hbuild & Hlook).
  { intros s Hs. elem_of_compute Hs. all: vm_compute; eexists; reflexivity. }
  exists id_to_span. split; [exact Hbuild|]. split; [exact Hlook|].
  rewrite !Hlook. split; reflexivity.
Defined.

Lemma relation_create_label_needs_every_example_witness :
  ∃ k rows,
    RelationExamples.create_label [Scenario.tagged_record; Sample.late_record] 7 9
      [Scenario.example] Scenario.store =
      (Raise (KeyError k), with_new_spans Scenario.store rows)
    ∧ length rows =
        length (span_pairs [Scenario.tagged_record; Sample.late_record] [Scenario.example]).
Proof.
  apply (relation_create_label_needs_every_example
           [Scenario.tagged_record; Sample.late_record] 7 9 [Scenario.example]
           Scenario.store Sample.span_u3).
  - intros p Hp. elem_of_compute Hp; vm_compute; eexists; reflexivity.
  - right. by left.
  - intros Hin. elem_of_compute Hin.
Defined.

Lemma category_create_commits_batch_witness :
  ∃ st' new_examples rows,
    CategoryExamples.create [Sample.category_record] 7 9 empty_store = (Ok (), st')
    ∧ examples st' = examples empty_store ++ new_examples
    ∧ length new_examples = length [Sample.category_record]
    ∧ categories st' =
        categories empty_store ++ assign_pks (next_pk (categories empty_store)) rows
    ∧ Forall2 (λ d p, cat_user d = 9%nat ∧ cat_example d = p.2
                      ∧ cat_label d ∈ category_types st'
                      ∧ lt_project (row (cat_label d)) = 7%nat
                      ∧ lt_text (row (cat_label d)) = LabelOps.name p.1)
        rows (label_pairs [Sample.category_record] new_examples).
Proof.
  apply (category_create_commits_batch [Sample.category_record] 7 9 empty_store).
  intros record l Hrecord Hl. elem_of_compute Hrecord. elem_of_compute Hl; done.
Defined.

Lemma relation_create_links_own_spans_witness :
  ∃ st' new_examples new_spans new_relations,
    RelationExamples.create [Scenario.record; Corpus.record_c] 7 9 empty_store = (Ok (), st')
    ∧ examples st' = examples empty_store ++ new_examples
    ∧ length new_examples = length [Scenario.record; Corpus.record_c]
    ∧ spans st' = spans empty_store ++ new_spans
    ∧ length new_spans = length (batch_spans [Scenario.record; Corpus.record_c])
    ∧ relations st' = relations empty_store ++ new_relations
    ∧ (relation_pairs [Scenario.record; Corpus.record_c] new_examples).*1 =
        batch_relations [Scenario.record; Corpus.record_c]
    ∧ Forall2 (links [Scenario.record; Corpus.record_c] 7 9 st' new_spans)
        new_relations (relation_pairs [Scenario.record; Corpus.record_c] new_examples).
Proof.
  apply (relation_create_links_own_spans [Scenario.record; Corpus.record_c] 7 9
           empty_store).
  - intros s Hs. elem_of_compute Hs; done.
  - intros r Hr. elem_of_compute Hr; done.
  - intros record r Hrecord Hr. elem_of_compute Hrecord; elem_of_compute Hr.
    all: split; apply (bool_decide_unpack _); by vm_compute.
  - apply (bool_decide_unpack _). by vm_compute.
  - apply (bool_decide_unpack _). by vm_compute.
Defined.
